(** * memory-capture-franklin: the capture / deduplication pipeline

    A shallow embedding of [memory-capture-franklin.py] and the properties
    its design note states about it.

    Conventions of the embedding.
    - A Python [str] is a Rocq [string]; every [ascii] is read as one code
      point in U+0000..U+00FF, so [String.length] is Python's [len].  On
      that range [str.lower] and [str.strip] act character by character and
      are written out below.
    - [hashlib.md5] is RFC 1321, on 32-bit words kept in [Z] with the
      wrap-around explicit; it is run against published digests in Part II.
    - The interpreter's world (files, standard error, the clock, the
      [openclaw] executable, [json.loads]) is explicit: a [world] record is
      threaded through every effectful function and an [env] record holds
      what the outside answers.  Every file-system call is recorded in the
      world's [trace], every command line run in [spawned].
    - A Python exception is a value of [exn]; code that may raise returns a
      [result].  Calls fail where the source handles their failure: a
      process that does not run or exits with an error, output that is not
      JSON, a log that cannot be read; and where the interpreter raises on
      values of the wrong type.
    - Creating the log's directory and appending to the log, which the
      source leaves unguarded, raise what the system call raises: a regular
      file where a directory is needed, a directory where the log should
      be, a path that refuses writing.  A refused append fails at
      [open]; nothing of the entry is then written. *)

From Stdlib Require Import ZArith QArith_base Ascii String List Bool Lia DecimalString.
From stdpp Require Import base strings gmap list.
Import ListNotations.
#[local] Open Scope string_scope.
#[local] Open Scope list_scope.

(* ===================================================================== *)
(** * Part I: definitions *)
(* ===================================================================== *)

(** ** Python strings *)

Module PyStr.

Definition code (c : ascii) : N := N_of_ascii c.

(** [str.lower] on one code point: A-Z, and the Latin-1 capitals
    U+00C0..U+00DE except the multiplication sign U+00D7, move up by 32. *)
Definition lower_char (c : ascii) : ascii :=
  let n := code c in
  if ((65 <=? n) && (n <=? 90))%N then ascii_of_N (n + 32)
  else if ((192 <=? n) && (n <=? 222) && negb (n =? 215))%N then ascii_of_N (n + 32)
  else c.

Fixpoint lower (s : string) : string :=
  match s with
  | EmptyString => EmptyString
  | String c s' => String (lower_char c) (lower s')
  end.

(** [str.isspace] on one code point. *)
Definition is_space (c : ascii) : bool :=
  let n := code c in
  (((9 <=? n) && (n <=? 13)) || ((28 <=? n) && (n <=? 32))
   || (n =? 133) || (n =? 160))%N.

Fixpoint lstrip (s : string) : string :=
  match s with
  | EmptyString => EmptyString
  | String c s' => if is_space c then lstrip s' else s
  end.

(** Strips from the right: a character goes when it is blank and all that
    follows it went too. *)
Fixpoint rstrip (s : string) : string :=
  match s with
  | EmptyString => EmptyString
  | String c s' =>
      match rstrip s' with
      | EmptyString => if is_space c then EmptyString else String c EmptyString
      | r => String c r
      end
  end.

Definition strip (s : string) : string := rstrip (lstrip s).

(** [needle in hay]. *)
Fixpoint contains (needle hay : string) : bool :=
  String.prefix needle hay ||
  match hay with
  | EmptyString => false
  | String _ hay' => contains needle hay'
  end.

(** Number of positions of [hay] at which [needle] starts. *)
Fixpoint occurrences (needle hay : string) : nat :=
  (if String.prefix needle hay then 1 else 0) +
  match hay with
  | EmptyString => 0
  | String _ hay' => occurrences needle hay'
  end.

(** [sep.join(parts)]. *)
Definition join (sep : string) (parts : list string) : string :=
  String.concat sep parts.

(** [str(n)] for a natural number. *)
Definition of_nat (n : nat) : string := NilZero.string_of_uint (Nat.to_uint n).

(** [str.encode()]: UTF-8 of code points below 256. *)
Definition encode_char (c : ascii) : list Z :=
  let n := Z.of_N (code c) in
  if (n <? 128)%Z then [n]
  else [Z.lor 192 (Z.shiftr n 6); Z.lor 128 (Z.land n 63)].

Fixpoint encode (s : string) : list Z :=
  match s with
  | EmptyString => []
  | String c s' => encode_char c ++ encode s'
  end.

End PyStr.

(** ** MD5 (RFC 1321), as [hashlib.md5(data).hexdigest()] computes it *)

Module MD5.
#[local] Open Scope Z_scope.

Definition mask32 (x : Z) : Z := Z.land x 0xFFFFFFFF.
Definition add32 (x y : Z) : Z := mask32 (x + y).
Definition not32 (x : Z) : Z := Z.lxor x 0xFFFFFFFF.
Definition rotl32 (x c : Z) : Z :=
  mask32 (Z.lor (Z.shiftl x c) (Z.shiftr x (32 - c))).

Definition K : list Z :=
  [ 0xd76aa478; 0xe8c7b756; 0x242070db; 0xc1bdceee;
    0xf57c0faf; 0x4787c62a; 0xa8304613; 0xfd469501;
    0x698098d8; 0x8b44f7af; 0xffff5bb1; 0x895cd7be;
    0x6b901122; 0xfd987193; 0xa679438e; 0x49b40821;
    0xf61e2562; 0xc040b340; 0x265e5a51; 0xe9b6c7aa;
    0xd62f105d; 0x02441453; 0xd8a1e681; 0xe7d3fbc8;
    0x21e1cde6; 0xc33707d6; 0xf4d50d87; 0x455a14ed;
    0xa9e3e905; 0xfcefa3f8; 0x676f02d9; 0x8d2a4c8a;
    0xfffa3942; 0x8771f681; 0x6d9d6122; 0xfde5380c;
    0xa4beea44; 0x4bdecfa9; 0xf6bb4b60; 0xbebfbc70;
    0x289b7ec6; 0xeaa127fa; 0xd4ef3085; 0x04881d05;
    0xd9d4d039; 0xe6db99e5; 0x1fa27cf8; 0xc4ac5665;
    0xf4292244; 0x432aff97; 0xab9423a7; 0xfc93a039;
    0x655b59c3; 0x8f0ccc92; 0xffeff47d; 0x85845dd1;
    0x6fa87e4f; 0xfe2ce6e0; 0xa3014314; 0x4e0811a1;
    0xf7537e82; 0xbd3af235; 0x2ad7d2bb; 0xeb86d391 ].

Definition S : list Z :=
  [ 7; 12; 17; 22; 7; 12; 17; 22; 7; 12; 17; 22; 7; 12; 17; 22;
    5; 9; 14; 20; 5; 9; 14; 20; 5; 9; 14; 20; 5; 9; 14; 20;
    4; 11; 16; 23; 4; 11; 16; 23; 4; 11; 16; 23; 4; 11; 16; 23;
    6; 10; 15; 21; 6; 10; 15; 21; 6; 10; 15; 21; 6; 10; 15; 21 ].

Record regs := Regs { rA : Z; rB : Z; rC : Z; rD : Z }.

Definition init : regs :=
  Regs 0x67452301 0xefcdab89 0x98badcfe 0x10325476.

(** Message padding: a 1 bit, zeros up to 56 modulo 64, then the bit
    length as 8 little-endian bytes. *)
Definition le_bytes (n : nat) (x : Z) : list Z :=
  map (fun i => Z.land (Z.shiftr x (8 * Z.of_nat i)) 255) (seq 0 n).

Definition pad (msg : list Z) : list Z :=
  let len := Z.of_nat (length msg) in
  let zeros := Z.to_nat ((55 - len) mod 64) in
  msg ++ [128] ++ repeat 0 zeros ++ le_bytes 8 (Z.land (8 * len) 0xFFFFFFFFFFFFFFFF).

Fixpoint words (n : nat) (bytes : list Z) : list Z :=
  match n with
  | O => []
  | Datatypes.S n' =>
      match bytes with
      | b0 :: b1 :: b2 :: b3 :: rest =>
          (b0 + Z.shiftl b1 8 + Z.shiftl b2 16 + Z.shiftl b3 24) :: words n' rest
      | _ => []
      end
  end.

Definition round (M : list Z) (r : regs) (i : nat) : regs :=
  let '(Regs a b c d) := r in
  let iz := Z.of_nat i in
  let '(f, g) :=
    if iz <? 16 then (Z.lor (Z.land b c) (Z.land (not32 b) d), iz)
    else if iz <? 32 then (Z.lor (Z.land d b) (Z.land (not32 d) c), (5 * iz + 1) mod 16)
    else if iz <? 48 then (Z.lxor (Z.lxor b c) d, (3 * iz + 5) mod 16)
    else (Z.lxor c (Z.lor b (not32 d)), (7 * iz) mod 16) in
  let f' := add32 (add32 (add32 f a) (nth i K 0)) (nth (Z.to_nat g) M 0) in
  Regs d (add32 b (rotl32 f' (nth i S 0))) b c.

Definition compress (r : regs) (block : list Z) : regs :=
  let M := words 16 block in
  let r' := fold_left (round M) (seq 0 64) r in
  Regs (add32 (rA r) (rA r')) (add32 (rB r) (rB r'))
       (add32 (rC r) (rC r')) (add32 (rD r) (rD r')).

Fixpoint blocks (n : nat) (bytes : list Z) : list (list Z) :=
  match n with
  | O => []
  | Datatypes.S n' => firstn 64 bytes :: blocks n' (skipn 64 bytes)
  end.

Definition digest (msg : list Z) : list Z :=
  let p := pad msg in
  let r := fold_left compress (blocks (length p / 64) p) init in
  le_bytes 4 (rA r) ++ le_bytes 4 (rB r) ++ le_bytes 4 (rC r) ++ le_bytes 4 (rD r).

Definition hex_digit (x : Z) : ascii :=
  if x <? 10 then ascii_of_N (Z.to_N (48 + x)) else ascii_of_N (Z.to_N (87 + x)).

Fixpoint hex (bytes : list Z) : string :=
  match bytes with
  | [] => EmptyString
  | b :: rest => String (hex_digit (Z.shiftr b 4)) (String (hex_digit (Z.land b 15)) (hex rest))
  end.

Definition hexdigest (msg : list Z) : string := hex (digest msg).

End MD5.

(** ** Python values, exceptions *)

(** What [json.loads] can return.  A [JObj] lists the items of a [dict] in
    insertion order, so its keys are distinct; [dict_get] takes the first
    item with the key. *)
#[warnings="-register-all"]
Inductive json :=
| JNull
| JBool (b : bool)
| JNum (q : Q)
| JStr (s : string)
| JArr (items : list json)
| JObj (fields : list (string * json)).

(** An exception: its class and [str(e)].  The message texts of errors the
    interpreter raises are abridged; nothing below depends on them. *)
Inductive exn := Exn (cls msg : string).

Definition exn_str (e : exn) : string := let '(Exn _ m) := e in m.
Definition exn_class (e : exn) : string := let '(Exn c _) := e in c.

Definition AttributeError := Exn "AttributeError" "object has no attribute 'get'".
Definition TypeError (m : string) := Exn "TypeError" m.

(** An [OSError] of a system call on [path], with the text [str(e)] gives. *)
Definition os_error (cls errno strerror path : string) : exn :=
  Exn cls ("[Errno " +:+ errno +:+ "] " +:+ strerror +:+ ": '" +:+ path +:+ "'").

Definition FileNotFoundError := os_error "FileNotFoundError" "2" "No such file or directory".
Definition PermissionError := os_error "PermissionError" "13" "Permission denied".
Definition FileExistsError := os_error "FileExistsError" "17" "File exists".
Definition NotADirectoryError := os_error "NotADirectoryError" "20" "Not a directory".
Definition IsADirectoryError := os_error "IsADirectoryError" "21" "Is a directory".

Inductive result (A : Type) :=
| Ok (a : A)
| Raise (e : exn).
Arguments Ok {A} a.
Arguments Raise {A} e.

Definition rbind {A B} (r : result A) (k : A -> result B) : result B :=
  match r with
  | Ok a => k a
  | Raise e => Raise e
  end.

Notation "'let?' x ':=' r 'in' k" := (rbind r (fun x => k))
  (at level 10, x name, r at level 100, k at level 200).

Module Py.

Fixpoint dict_get (fields : list (string * json)) (k : string) : option json :=
  match fields with
  | [] => None
  | (k', v) :: rest => if String.eqb k' k then Some v else dict_get rest k
  end.

(** [v.get(k, default)]: only a [dict] has the method. *)
Definition get (v : json) (k : string) (default : json) : result json :=
  match v with
  | JObj fields => Ok (match dict_get fields k with Some x => x | None => default end)
  | _ => Raise AttributeError
  end.

(** [v == s] for a string literal [s]. *)
Definition eq_str (v : json) (s : string) : bool :=
  match v with
  | JStr t => String.eqb t s
  | _ => false
  end.

Definition is_dict (v : json) : bool :=
  match v with JObj _ => true | _ => false end.

(** [bool(v)]. *)
Definition truthy (v : json) : bool :=
  match v with
  | JNull => false
  | JBool b => b
  | JNum q => negb (Qnum q =? 0)%Z
  | JStr s => negb (String.eqb s "")
  | JArr items => match items with [] => false | _ => true end
  | JObj fields => match fields with [] => false | _ => true end
  end.

Fixpoint chars (s : string) : list json :=
  match s with
  | EmptyString => []
  | String c s' => JStr (String c EmptyString) :: chars s'
  end.

(** The items a [for] loop over [v] visits. *)
Definition iter (v : json) : result (list json) :=
  match v with
  | JArr items => Ok items
  | JStr s => Ok (chars s)
  | JObj fields => Ok (map (fun kv => JStr (fst kv)) fields)
  | _ => Raise (TypeError "object is not iterable")
  end.

(** [len(v)]. *)
Definition len (v : json) : result nat :=
  match v with
  | JArr items => Ok (length items)
  | JStr s => Ok (String.length s)
  | JObj fields => Ok (length fields)
  | _ => Raise (TypeError "object has no len()")
  end.

(** [s in v] for a string literal [s]. *)
Definition str_in (s : string) (v : json) : result bool :=
  match v with
  | JStr t => Ok (PyStr.contains s t)
  | JArr items => Ok (existsb (fun x => eq_str x s) items)
  | JObj fields => Ok (match dict_get fields s with Some _ => true | None => false end)
  | _ => Raise (TypeError "argument is not iterable")
  end.

(** [sep.join(parts)] on a list of values: every part must be a [str]. *)
Fixpoint strs (parts : list json) : result (list string) :=
  match parts with
  | [] => Ok []
  | JStr s :: rest => let? r := strs rest in Ok (s :: r)
  | _ :: _ => Raise (TypeError "sequence item: expected str instance")
  end.

Definition join (sep : string) (parts : list json) : result string :=
  let? ss := strs parts in Ok (PyStr.join sep ss).

End Py.

(** ** [os.path] on POSIX paths *)

Module Path.

Definition slash : ascii := "/"%char.

Definition is_slash (c : ascii) : bool := Ascii.eqb c slash.

(** [os.path.join(a, b)]. *)
Definition join2 (a b : string) : string :=
  if String.prefix "/" b then b
  else if String.eqb a "" then b
  else if String.prefix "/" (String.string_of_list_ascii (rev (String.list_ascii_of_string a)))
       then a +:+ b
  else a +:+ "/" +:+ b.

Definition join (a : string) (parts : list string) : string := fold_left join2 parts a.

(** The part of [p] up to and including its last slash, if it has one. *)
Fixpoint head_with_slash (p : string) : string :=
  match p with
  | EmptyString => EmptyString
  | String c p' =>
      match head_with_slash p' with
      | EmptyString => if is_slash c then String c EmptyString else EmptyString
      | h => String c h
      end
  end.

Fixpoint all_slashes (p : string) : bool :=
  match p with
  | EmptyString => true
  | String c p' => is_slash c && all_slashes p'
  end.

Fixpoint rstrip_slashes (p : string) : string :=
  match p with
  | EmptyString => EmptyString
  | String c p' =>
      match rstrip_slashes p' with
      | EmptyString => if is_slash c then EmptyString else String c EmptyString
      | r => String c r
      end
  end.

(** [os.path.dirname(p)]. *)
Definition dirname (p : string) : string :=
  let head := head_with_slash p in
  if negb (String.eqb head "") && negb (all_slashes head) then rstrip_slashes head
  else head.

(** [p] and the directories above it, outermost first: what
    [os.makedirs(p, exist_ok=True)] leaves in place. *)
Fixpoint ancestors_aux (pre : string) (rest : string) : list string :=
  match rest with
  | EmptyString => match pre with EmptyString => [] | _ => [pre] end
  | String c rest' =>
      if is_slash c && negb (all_slashes pre)
      then pre :: ancestors_aux (pre +:+ String c EmptyString) rest'
      else ancestors_aux (pre +:+ String c EmptyString) rest'
  end.

Definition ancestors (p : string) : list string := ancestors_aux EmptyString p.

End Path.

Definition WORKSPACE : string := "/root/clawd".
Definition STREAM_FILE : string := Path.join WORKSPACE ["memory"; "stream.log"].
Definition STATE_FILE : string := Path.join WORKSPACE [".memory-capture-state"].

(** ** The world outside the interpreter *)

(** A regular file: its text, and whether [open(path, 'r').read()] gets
    through (permissions, bytes the locale's codec rejects, I/O errors). *)
Record file := File { readable : bool; content : string }.

(** What the pipeline asks of the file system, in order. *)
Inductive fs_event :=
| EvExists (path : string)
| EvRead (path : string)
| EvMakedirs (path : string)
| EvAppend (path : string).

Definition event_path (ev : fs_event) : string :=
  match ev with
  | EvExists p | EvRead p | EvMakedirs p | EvAppend p => p
  end.

Record world := World {
  files : gmap string file;   (* regular files, by path *)
  dirs : gset string;         (* directories, by path *)
  readonly : gset string;     (* paths that refuse writing: a file there cannot
                                 be opened for appending, a directory there
                                 takes no new entry (permissions, a read-only
                                 mount) *)
  stderr : list string;       (* lines printed to standard error *)
  trace : list fs_event;      (* file-system calls made so far *)
  spawned : list (list string); (* command lines run so far *)
  ticks : nat                 (* clock readings taken so far *)
}.

(** How a [subprocess.run(..., capture_output=True, text=True, timeout=15)]
    ends: the child exits, or the call raises (the executable is missing,
    the timeout expires, the output does not decode). *)
Inductive proc :=
| Completed (returncode : Z) (out err : string)
| Failed (e : exn).

(** What the outside answers during one run. *)
Record env := Env {
  spawn : list string -> proc;              (* the command line, run *)
  strftime_now : nat -> string -> string;   (* the n-th datetime.now(), formatted *)
  json_loads : string -> result json        (* json.loads *)
}.

(** ** Computations: world passing, with exceptions *)

Definition M (A : Type) : Type := world -> result A * world.

Definition ret {A} (a : A) : M A := fun w => (Ok a, w).

Definition bind {A B} (m : M A) (k : A -> M B) : M B :=
  fun w => match m w with
           | (Ok a, w') => k a w'
           | (Raise e, w') => (Raise e, w')
           end.

Definition lift {A} (r : result A) : M A := fun w => (r, w).

(** [try: m  except Exception as e: handler e]. *)
Definition try_except {A} (m : M A) (handler : exn -> M A) : M A :=
  fun w => match m w with
           | (Ok a, w') => (Ok a, w')
           | (Raise e, w') => handler e w'
           end.

Notation "'let*' x ':=' m 'in' k" := (bind m (fun x => k))
  (at level 10, x name, m at level 100, k at level 200).
Notation "m ';;' k" := (bind m (fun _ => k))
  (at level 100, k at level 200, right associativity).

Definition nl : string := String (ascii_of_nat 10) EmptyString.

(** ** File-system and clock primitives *)

Definition record (ev : fs_event) (w : world) : world :=
  World (files w) (dirs w) (readonly w) (stderr w) (trace w ++ [ev]) (spawned w) (ticks w).

(** [os.path.exists(p)]. *)
Definition path_exists (p : string) : M bool := fun w =>
  (Ok (bool_decide (is_Some (files w !! p)) || bool_decide (p ∈ dirs w)),
   record (EvExists p) w).

(** [with open(p, 'r') as f: f.read()]. *)
Definition read_file (p : string) : M string := fun w =>
  (match files w !! p with
   | Some f => if readable f then Ok (content f)
               else Raise (Exn "OSError" "cannot read")
   | None => Raise (if bool_decide (p ∈ dirs w) then IsADirectoryError p
                    else FileNotFoundError p)
   end,
   record (EvRead p) w).

(** [os.makedirs(p, exist_ok=True)] walks the directories of [p], outermost
    first.  One that is there is passed; one that is missing is made, unless
    its parent refuses writing.  A regular file in the way stops the walk:
    at [p] itself [os.mkdir] raises [FileExistsError], which [exist_ok] lets
    through because the path is no directory; above [p], making the next
    directory raises [NotADirectoryError].  What was made before the walk
    stopped stays. *)
Fixpoint mkdir_chain (ds : list string) (w : world) : result unit * world :=
  match ds with
  | [] => (Ok tt, w)
  | d :: rest =>
      if bool_decide (d ∈ dirs w) then mkdir_chain rest w
      else if bool_decide (is_Some (files w !! d)) then
        (Raise (match rest with
                | [] => FileExistsError d
                | below :: _ => NotADirectoryError below
                end), w)
      else if bool_decide (Path.dirname d ∈ readonly w) then (Raise (PermissionError d), w)
      else mkdir_chain rest
             (World (files w) (dirs w ∪ {[ d ]}) (readonly w)
                    (stderr w) (trace w) (spawned w) (ticks w))
  end.

Definition makedirs (p : string) : M unit := fun w =>
  mkdir_chain (Path.ancestors p) (record (EvMakedirs p) w).

(** [with open(p, 'a') as f: f.write(s1); ...; f.write(sn)].  [open] raises
    when [p] is a directory, when the directory of [p] is not there, and
    when [p], or for a new file its directory, refuses writing.  Otherwise
    the writes reach the file together, after what it held; a missing file
    is created.  Appending reads nothing, so it also reaches a file that
    cannot be read. *)
Definition append_file (p : string) (writes : list string) : M unit := fun w =>
  let w1 := record (EvAppend p) w in
  let put (f : file) :=
    World (<[p := f]> (files w1)) (dirs w1) (readonly w1)
          (stderr w1) (trace w1) (spawned w1) (ticks w1) in
  let text := String.concat EmptyString writes in
  if bool_decide (p ∈ dirs w) then (Raise (IsADirectoryError p), w1)
  else if negb (bool_decide (Path.dirname p ∈ dirs w)) then
    (Raise (if bool_decide (is_Some (files w !! Path.dirname p))
            then NotADirectoryError p else FileNotFoundError p), w1)
  else if bool_decide (p ∈ readonly w) then (Raise (PermissionError p), w1)
  else
    match files w !! p with
    | Some f => (Ok tt, put (File (readable f) (content f +:+ text)))
    | None =>
        if bool_decide (Path.dirname p ∈ readonly w) then (Raise (PermissionError p), w1)
        else (Ok tt, put (File true text))
    end.

Section Program.

Variable E : env.

(** [datetime.now().strftime(fmt)]. *)
Definition now (fmt : string) : M string := fun w =>
  (Ok (strftime_now E (ticks w) fmt),
   World (files w) (dirs w) (readonly w) (stderr w) (trace w) (spawned w) (Datatypes.S (ticks w))).

Definition print_stderr (line : string) : M unit := fun w =>
  (Ok tt, World (files w) (dirs w) (readonly w) (stderr w ++ [line]) (trace w) (spawned w) (ticks w)).

(** ** The program, function by function *)

Definition log (msg : string) : M unit :=
  let* t := now "%H:%M:%S" in
  print_stderr ("[" +:+ t +:+ "] " +:+ msg).

(** [subprocess.run(args, capture_output=True, text=True, timeout=15)]:
    an argument that is not a string is a [TypeError] before anything
    runs. *)
Definition subprocess_run (args : list json) : M (Z * string * string) := fun w =>
  match Py.strs args with
  | Raise e => (Raise e, w)
  | Ok cmd =>
      (match spawn E cmd with
       | Completed returncode out err => Ok (returncode, out, err)
       | Failed e => Raise e
       end,
       World (files w) (dirs w) (readonly w) (stderr w) (trace w) (spawned w ++ [cmd]) (ticks w))
  end.

Definition run_openclaw (args : list json) : M (bool * string * string) :=
  try_except
    (let* result := subprocess_run (JStr "openclaw" :: args) in
     let '(returncode, out, err) := result in
     ret ((returncode =? 0)%Z, out, err))
    (fun e => ret (false, "", exn_str e)).

(** The loop that looks for the main session; [None] when it ends without
    a [break]. *)
Fixpoint find_main (sessions : list json) : result (option json) :=
  match sessions with
  | [] => Ok None
  | s :: rest =>
      let? k := Py.get s "key" JNull in
      if Py.eq_str k "agent:main:main" then Ok (Some s)
      else
        let? k' := Py.get s "key" (JStr "") in
        let? found := Py.str_in "main" k' in
        if found then Ok (Some s) else find_main rest
  end.

Definition get_recent_messages : M json :=
  let* r := run_openclaw [JStr "sessions_list"; JStr "--limit"; JStr "5";
                          JStr "--format"; JStr "json"] in
  let '(success, stdout, stderr_) := r in
  if negb success then
    log ("Failed to list sessions: " +:+ stderr_);; ret (JArr [])
  else
    try_except
      (let* data := lift (json_loads E stdout) in
       let* sessions := lift (Py.get data "sessions" (JArr [])) in
       let* items := lift (Py.iter sessions) in
       let* main_session := lift (find_main items) in
       match main_session with
       | None => log "Main session not found";; ret (JArr [])
       | Some s =>
           if negb (Py.truthy s) then log "Main session not found";; ret (JArr [])
           else
             let* session_key := lift (Py.get s "key" JNull) in
             let* r2 := run_openclaw [JStr "sessions_history"; session_key;
                                      JStr "--limit"; JStr "10";
                                      JStr "--format"; JStr "json"] in
             let '(success2, stdout2, stderr2) := r2 in
             if negb success2 then
               log ("Failed to get history: " +:+ stderr2);; ret (JArr [])
             else
               let* data2 := lift (json_loads E stdout2) in
               lift (Py.get data2 "messages" (JArr []))
       end)
      (fun e => log ("Error parsing sessions: " +:+ exn_str e);; ret (JArr [])).

(** The loop of [extract_text_content]: one step appends to [texts]. *)
Definition collect_text (texts : result (list json)) (item : json) : result (list json) :=
  let? ts := texts in
  if Py.is_dict item then
    let? ty := Py.get item "type" JNull in
    if Py.eq_str ty "text" then
      let? t := Py.get item "text" (JStr "") in Ok (ts ++ [t])
    else Ok ts
  else Ok ts.

Definition extract_text_content (msg : json) : result string :=
  let? content := Py.get msg "content" (JArr []) in
  match content with
  | JArr items =>
      let? texts := fold_left collect_text items (Ok []) in
      let? joined := Py.join " " texts in
      Ok (PyStr.strip joined)
  | JStr s => Ok (PyStr.strip s)
  | _ => Ok ""
  end.

Definition keywords : list string :=
  [ "decided"; "decision"; "determined"; "choose"; "selected"; "committed";
    "discovered"; "found"; "realized"; "learned"; "insight"; "identified";
    "implemented"; "built"; "created"; "fixed"; "solved"; "completed";
    "issue"; "problem"; "bug"; "error"; "blocker"; "blocked";
    "success"; "succeeded"; "working"; "resolved"; "achieved" ].

(** [any(kw in text_lower for kw in kws)]. *)
Definition any_in (kws : list string) (text_lower : string) : bool :=
  existsb (fun kw => PyStr.contains kw text_lower) kws.

Definition is_important (text : string) : bool :=
  let text_lower := PyStr.lower text in
  any_in keywords text_lower && Nat.ltb 40 (String.length text).

Definition get_category (text : string) : string :=
  let text_lower := PyStr.lower text in
  if any_in ["decided"; "decision"; "determined"] text_lower then "decision"
  else if any_in ["discovered"; "found"; "realized"; "insight"] text_lower then "discovery"
  else if any_in ["implemented"; "built"; "created"; "fixed"] text_lower then "implementation"
  else if any_in ["issue"; "problem"; "bug"; "error"; "blocker"] text_lower then "issue"
  else if any_in ["success"; "succeeded"; "resolved"; "completed"] text_lower then "success"
  else "outcome".

Definition get_hash (text : string) : string :=
  String.substring 0 16 (MD5.hexdigest (PyStr.encode text)).

Definition already_captured (hash_val : string) : M bool :=
  let* present := path_exists STREAM_FILE in
  if negb present then ret false
  else
    try_except
      (let* text := read_file STREAM_FILE in
       ret (PyStr.contains ("hash:" +:+ hash_val) text))
      (fun _ => ret false).

Definition append_to_stream (text category : string) : M bool :=
  let hash_val := get_hash text in
  let* captured := already_captured hash_val in
  if captured then ret false
  else
    makedirs (Path.dirname STREAM_FILE);;
    let* timestamp := now "%Y-%m-%d %H:%M:%S UTC" in
    append_file STREAM_FILE
      [ nl +:+ "---" +:+ nl;
        "[" +:+ timestamp +:+ "] [" +:+ category +:+ "]" +:+ nl;
        text +:+ nl;
        "hash:" +:+ hash_val +:+ nl ];;
    ret true.

(** The body of the [for msg in messages] loop of [main], with the running
    count. *)
Fixpoint capture_loop (msgs : list json) (captured : nat) : M nat :=
  match msgs with
  | [] => ret captured
  | msg :: rest =>
      let* text := lift (extract_text_content msg) in
      if String.eqb text "" then capture_loop rest captured
      else if is_important text then
        let category := get_category text in
        let* appended := append_to_stream text category in
        if appended then
          log ("Captured: " +:+ category);; capture_loop rest (Datatypes.S captured)
        else capture_loop rest captured
      else capture_loop rest captured
  end.

Definition main : M unit :=
  log "MemoryCapture Franklin starting...";;
  let* messages := get_recent_messages in
  if negb (Py.truthy messages) then log "No messages found"
  else
    let* n := lift (Py.len messages) in
    log ("Found " +:+ PyStr.of_nat n +:+ " messages to analyze");;
    let* items := lift (Py.iter messages) in
    let* captured := capture_loop items 0 in
    log ("Complete: captured " +:+ PyStr.of_nat captured +:+ " entries").

End Program.

(** ** Vocabulary of the statements *)

(** The digest marker of an entry, ['hash:<digest>']. *)
Definition marker (digest : string) : string := "hash:" +:+ digest.

(** The block [append_to_stream] writes for one entry. *)
Definition entry_block (timestamp category text : string) : string :=
  nl +:+ "---" +:+ nl +:+
  "[" +:+ timestamp +:+ "] [" +:+ category +:+ "]" +:+ nl +:+
  text +:+ nl +:+
  marker (get_hash text) +:+ nl.

(** The text of the stream log; an absent log has none. *)
Definition log_content (w : world) : string :=
  match files w !! STREAM_FILE with
  | Some f => content f
  | None => EmptyString
  end.

(** The stream log can be read back (an absent log raises nothing: the
    existence test comes first). *)
Definition log_readable (w : world) : bool :=
  match files w !! STREAM_FILE with
  | Some f => readable f
  | None => true
  end.

(** Nothing stands in the way of having the directory [d]: it is there, or
    no regular file sits at its path and its parent accepts a new entry. *)
Definition can_make (w : world) (d : string) : bool :=
  bool_decide (d ∈ dirs w)
  || negb (bool_decide (is_Some (files w !! d)))
     && negb (bool_decide (Path.dirname d ∈ readonly w)).

(** The stream log can be appended to: the directories down to the log's
    can be had, no directory sits at the log's path, the path accepts
    writing, and so does the log's directory when the log is yet to be
    created. *)
Definition log_appendable (w : world) : bool :=
  forallb (can_make w) (Path.ancestors (Path.dirname STREAM_FILE))
  && negb (bool_decide (STREAM_FILE ∈ dirs w))
  && negb (bool_decide (STREAM_FILE ∈ readonly w))
  && (bool_decide (is_Some (files w !! STREAM_FILE))
      || negb (bool_decide (Path.dirname STREAM_FILE ∈ readonly w))).

(** The classes of the [OSError] a refused write of an entry raises. *)
Definition write_errors : list string :=
  ["FileExistsError"; "NotADirectoryError"; "PermissionError"; "IsADirectoryError"].

(** [m] and [kw] are the same word up to case. *)
Definition same_nocase (m kw : string) : Prop := PyStr.lower m = PyStr.lower kw.

(** [kw] occurs in [text] as a case-insensitive substring. *)
Definition matches_nocase (kw text : string) : Prop :=
  exists pre m post, text = pre +:+ m +:+ post /\ same_nocase m kw.

(** The keyword groups of [get_category] as an ordered table, first row
    first. *)
Definition groups : list (string * list string) :=
  [ ("decision", ["decided"; "decision"; "determined"]);
    ("discovery", ["discovered"; "found"; "realized"; "insight"]);
    ("implementation", ["implemented"; "built"; "created"; "fixed"]);
    ("issue", ["issue"; "problem"; "bug"; "error"; "blocker"]);
    ("success", ["success"; "succeeded"; "resolved"; "completed"]) ].

Definition group_matches (g : string * list string) (text : string) : Prop :=
  exists kw, In kw (snd g) /\ matches_nocase kw text.

(** Classification as the design note words it: the category of the first
    row of the table with a match, else [outcome]. *)
Definition classify_by_table (text : string) : string :=
  match find (fun g => any_in (snd g) (PyStr.lower text)) groups with
  | Some g => fst g
  | None => "outcome"
  end.

(** All keywords some group of [get_category] looks for. *)
Definition category_keywords : list string := concat (map snd groups).

(** The keywords [is_important] accepts and no group of [get_category] has. *)
Definition uncategorised : list string :=
  [ "working"; "achieved"; "solved"; "blocked"; "learned"; "identified";
    "choose"; "selected"; "committed" ].

(** A content block the extraction keeps: a [dict] tagged [type: text]. *)
Definition is_text_block (item : json) : bool :=
  match item with
  | JObj fields =>
      match Py.dict_get fields "type" with
      | Some ty => Py.eq_str ty "text"
      | None => false
      end
  | _ => false
  end.

(** The [text] field of a block, empty when the block has none. *)
Definition text_field (item : json) : json :=
  match item with
  | JObj fields =>
      match Py.dict_get fields "text" with
      | Some t => t
      | None => JStr ""
      end
  | _ => JStr ""
  end.

(** The two command lines of [get_recent_messages]. *)
Definition list_cmd : list string :=
  ["openclaw"; "sessions_list"; "--limit"; "5"; "--format"; "json"].

Definition history_cmd (session_key : string) : list string :=
  ["openclaw"; "sessions_history"; session_key; "--limit"; "10"; "--format"; "json"].

(** The step that runs [cmd] fails: the call raises (spawn error, timeout),
    the exit code is not 0, or the output is not JSON. *)
Definition step_fails (E : env) (cmd : list string) : bool :=
  match spawn E cmd with
  | Failed _ => true
  | Completed returncode out _ =>
      if (returncode =? 0)%Z
      then match json_loads E out with Raise _ => true | Ok _ => false end
      else true
  end.



(** The file system does not touch [p] between [w] and [w']: the file and
    directory at [p] are as before and no call made in between names [p]. *)
Definition untouched (p : string) (w w' : world) : Prop :=
  files w' !! p = files w !! p /\
  (p ∈ dirs w' <-> p ∈ dirs w) /\
  exists evs, trace w' = trace w ++ evs /\ Forall (fun ev => event_path ev <> p) evs.

(** ** A concrete outside, for the examples *)

Definition empty_world : world := World ∅ ∅ ∅ [] [] [] 0.

(** A world whose only file is the stream log. *)
Definition world_with_log (f : file) : world :=
  World {[ STREAM_FILE := f ]} ∅ ∅ [] [] [] 0.

(** A world where a directory sits at the path of the stream log, below the
    directories that lead to it. *)
Definition world_with_log_directory : world :=
  World ∅ (list_to_set (Path.ancestors STREAM_FILE)) ∅ [] [] [] 0.

(** A world whose only file is an empty regular file at [p], below the
    directories that lead to it. *)
Definition world_with_file (p : string) : world :=
  World {[ p := File true "" ]} (list_to_set (Path.ancestors (Path.dirname p))) ∅ [] [] [] 0.

(** An outside where [openclaw] is not installed, the clock stands still and
    nothing parses as JSON. *)
Definition offline : env :=
  Env (fun _ => Failed (FileNotFoundError "openclaw"))
      (fun _ fmt => if String.eqb fmt "%H:%M:%S" then "12:00:00" else "2026-01-01 12:00:00 UTC")
      (fun _ => Raise (Exn "JSONDecodeError" "Expecting value")).

Definition scenario_text : string :=
  "We decided to use hashing for deduplication because it's simple".


(** An outside where [openclaw] answers: one session, [agent:main:main],
    whose history holds a short message, the scenario text as a text block,
    and the scenario text once more.  The two outputs are named rather than
    spelled out, and [json_loads] gives what [json.loads] makes of them. *)
Definition online_sessions : json :=
  JObj [("sessions", JArr [JObj [("key", JStr "agent:main:main")]])].

Definition online_history : json :=
  JObj [("messages",
         JArr [ JObj [("role", JStr "user"); ("content", JStr "ok")];
                JObj [("role", JStr "assistant");
                      ("content", JArr [JObj [("type", JStr "text");
                                              ("text", JStr scenario_text)]])];
                JObj [("role", JStr "assistant"); ("content", JStr scenario_text)] ])].

Definition online : env :=
  Env (fun cmd =>
         if decide (cmd = list_cmd)
         then Completed 0 "sessions.json" ""
         else if decide (cmd = history_cmd "agent:main:main")
         then Completed 0 "history.json" ""
         else Completed 2 "" "unknown command")
      (fun _ fmt => if String.eqb fmt "%H:%M:%S" then "12:00:00" else "2026-01-01 12:00:00 UTC")
      (fun out =>
         if String.eqb out "sessions.json" then Ok online_sessions
         else if String.eqb out "history.json" then Ok online_history
         else Raise (Exn "JSONDecodeError" "Expecting value")).

(** ** Vocabulary of the proofs *)

(** A keyword in lower case. *)
Definition lowercase (kw : string) : Prop := PyStr.lower kw = kw.

(** The world after the existence test and, when the path exists, the read. *)
Definition after_check (w : world) : world :=
  let w1 := record (EvExists STREAM_FILE) w in
  if bool_decide (is_Some (files w !! STREAM_FILE)) || bool_decide (STREAM_FILE ∈ dirs w)
  then record (EvRead STREAM_FILE) w1
  else w1.

(** The world after [append_to_stream] wrote the entry. *)
Definition after_append (E : env) (text category : string) (w : world) : world :=
  let timestamp := strftime_now E (ticks w) "%Y-%m-%d %H:%M:%S UTC" in
  World (<[STREAM_FILE := File (log_readable w)
                            (log_content w +:+ entry_block timestamp category text)]> (files w))
        (dirs w ∪ list_to_set (Path.ancestors (Path.dirname STREAM_FILE)))
        (readonly w)
        (stderr w)
        (trace (after_check w) ++ [EvMakedirs (Path.dirname STREAM_FILE); EvAppend STREAM_FILE])
        (spawned w)
        (Datatypes.S (ticks w)).

(** The world [w] with [ds] for its directories. *)
Definition with_dirs (ds : gset string) (w : world) : world :=
  World (files w) ds (readonly w) (stderr w) (trace w) (spawned w) (ticks w).

(** What a refused write leaves of [w]: files and output as they were,
    perhaps some directories of the log's chain made, and calls that name
    the log or its directory. *)
Definition refusal (w w' : world) : Prop :=
  files w' = files w /\ readonly w' = readonly w
  /\ stderr w' = stderr w /\ spawned w' = spawned w
  /\ dirs w ⊆ dirs w'
  /\ dirs w' ⊆ dirs w ∪ list_to_set (Path.ancestors (Path.dirname STREAM_FILE))
  /\ exists evs, trace w' = trace w ++ evs
                 /\ Forall (fun ev => event_path ev = STREAM_FILE
                                      \/ event_path ev = Path.dirname STREAM_FILE) evs.

(** The ways a call of [append_to_stream] ends: the marker is found; the
    entry is written, on a log that can be appended to; or, on a log that
    cannot, the file system refuses the write. *)
Inductive append_outcome (E : env) (text category : string) (w : world) :
    result bool -> world -> Prop :=
| Duplicate :
    log_readable w && PyStr.contains (marker (get_hash text)) (log_content w) = true ->
    append_outcome E text category w (Ok false) (after_check w)
| Appended :
    log_readable w && PyStr.contains (marker (get_hash text)) (log_content w) = false ->
    log_appendable w = true ->
    append_outcome E text category w (Ok true) (after_append E text category w)
| Refused e w' :
    log_readable w && PyStr.contains (marker (get_hash text)) (log_content w) = false ->
    log_appendable w = false ->
    In (exn_class e) write_errors ->
    refusal w w' ->
    append_outcome E text category w (Raise e) w'.





(** [wp m Q w]: run from [w], [m] ends in a result and a world that [Q]
    accepts. *)
Definition wp {A} (m : M A) (Q : result A -> world -> Prop) (w : world) : Prop :=
  Q (fst (m w)) (snd (m w)).

(** What [Q] must accept after [m], when [k] runs next on a value. *)
Definition then_wp {A B} (k : A -> M B) (Q : result B -> world -> Prop)
    (r : result A) (w : world) : Prop :=
  match r with
  | Ok a => wp (k a) Q w
  | Raise e => Q (Raise e) w
  end.

(** What [Q] must accept after [m], when [handler] catches what it raises. *)
Definition catch_wp {A} (handler : exn -> M A) (Q : result A -> world -> Prop)
    (r : result A) (w : world) : Prop :=
  match r with
  | Ok a => Q (Ok a) w
  | Raise e => wp (handler e) Q w
  end.

(** The world after [log] printed [msg]. *)
Definition logged (E : env) (msg : string) (w : world) : world :=
  World (files w) (dirs w) (readonly w)
        (stderr w ++ ["[" +:+ strftime_now E (ticks w) "%H:%M:%S" +:+ "] " +:+ msg])
        (trace w) (spawned w) (Datatypes.S (ticks w)).

(** The world after a command line was run. *)
Definition ran (cmd : list string) (w : world) : world :=
  World (files w) (dirs w) (readonly w) (stderr w) (trace w) (spawned w ++ [cmd]) (ticks w).

(** What [run_openclaw] returns for how the process ended. *)
Definition outcome (p : proc) : bool * string * string :=
  match p with
  | Completed returncode out err => ((returncode =? 0)%Z, out, err)
  | Failed e => (false, "", exn_str e)
  end.

(** [get_recent_messages] gave up: it returns the empty list and printed one
    diagnostic. *)
Definition soft_failure (w : world) (v : json) (w' : world) : Prop :=
  v = JArr [] /\ exists line, stderr w' = stderr w ++ [line].

(** What one call of [get_recent_messages] does to the world, whatever the
    outside answers. *)
Definition fetch_post (E : env) (w : world) (r : result json) (w' : world) : Prop :=
  exists v cmds,
    r = Ok v
    /\ files w' = files w /\ dirs w' = dirs w /\ trace w' = trace w
    /\ spawned w' = spawned w ++ cmds
    /\ (cmds = [list_cmd] \/ exists k, cmds = [list_cmd; history_cmd k])
    /\ (soft_failure w v w'
        \/ (Forall (fun cmd => step_fails E cmd = false) cmds /\ stderr w' = stderr w))
    /\ readonly w' = readonly w.

(** Between [w0] and [w] the state file was not touched and no command was
    run: what every step of [main] but the fetch guarantees. *)
Definition quiet (w0 w : world) : Prop :=
  untouched STATE_FILE w0 w /\ spawned w = spawned w0.

(** [m] keeps a quiet run quiet. *)
Definition frames {A} (m : M A) : Prop :=
  forall w0 w, quiet w0 w -> wp m (fun _ w' => quiet w0 w') w.

(** The world [w] with the state file replaced by [o]; absent when [o] is
    [None]. *)
Definition with_state_file (o : option file) (w : world) : world :=
  World (partial_alter (fun _ => o) STATE_FILE (files w))
        (dirs w) (readonly w) (stderr w) (trace w) (spawned w) (ticks w).

(** [m] runs the same whatever the state file holds, and leaves it as it
    found it. *)
Definition blind {A} (m : M A) : Prop :=
  forall o w, m (with_state_file o w) = (fst (m w), with_state_file o (snd (m w))).

(** ** spawn-memory-judge.py *)

Definition GATEWAY_URL : string := "http://localhost:18789".
Definition GATEWAY_TOKEN : string := "f2af82fa15a646da131431324695ee996c822cb569655641".

(** The double quote, which a string of this file cannot spell. *)
Definition dq : string := String (ascii_of_nat 34) EmptyString.

(** The three fixed pieces of the task text of [spawn_franklin], between
    which the two file names go. *)
Definition task_intro : string :=
  "You are the MemoryJudge. Review conversation messages and identify important moments."
  +:+ nl +:+ nl +:+ "Read: ".

Definition task_rules : string :=
  " (JSON array of messages)" +:+ nl +:+ nl +:+
  "For each message, determine:" +:+ nl +:+
  "1. Is it substantive? (>50 chars, not just 'okay', 'thanks', etc.)" +:+ nl +:+
  "2. Is it meaningful? Categories: decision, discovery, implementation, issue, success, feeling, philosophy"
  +:+ nl +:+
  "3. Importance: 1-10 (10 = critical, 1 = trivial)" +:+ nl +:+ nl +:+
  "Write ONLY important messages (importance >= 6) to: ".

Definition task_format : string :=
  nl +:+ nl +:+ "Format (one JSON object per line):" +:+ nl +:+
  "{" +:+ dq +:+ "timestamp" +:+ dq +:+ ":" +:+ dq +:+ "ISO8601" +:+ dq +:+ "," +:+
  dq +:+ "category" +:+ dq +:+ ":" +:+ dq +:+
  "decision|discovery|implementation|issue|success|feeling|philosophy" +:+ dq +:+ "," +:+
  dq +:+ "importance" +:+ dq +:+ ":8," +:+
  dq +:+ "text" +:+ dq +:+ ":" +:+ dq +:+ "message text" +:+ dq +:+ "," +:+
  dq +:+ "hash" +:+ dq +:+ ":" +:+ dq +:+ "md5-hash" +:+ dq +:+ "," +:+
  dq +:+ "source" +:+ dq +:+ ":" +:+ dq +:+ "franklin-judgment" +:+ dq +:+ "}" +:+
  nl +:+ nl +:+ "Be selective. Capture moments that matter.".

(** The f-string [task] of [spawn_franklin]. *)
Definition task (chunk_file queue_file : string) : string :=
  task_intro +:+ chunk_file +:+ task_rules +:+ queue_file +:+ task_format.

(** The command line [spawn_franklin] runs. *)
Definition agent_cmd (chunk_file queue_file : string) : list string :=
  ["openclaw"; "agent"; "--task"; task chunk_file queue_file; "--model"; "haiku"].

(** [spawn_franklin]; the call is [subprocess.run] as in [run_openclaw], with
    a timeout of 60 seconds, which is the outside's to enforce. *)
Definition spawn_franklin (E : env) (chunk_file queue_file : string) : M (bool * string) :=
  try_except
    (let* result := subprocess_run E [JStr "openclaw"; JStr "agent"; JStr "--task";
                                      JStr (task chunk_file queue_file);
                                      JStr "--model"; JStr "haiku"] in
     let '(returncode, _, err) := result in
     if (returncode =? 0)%Z then ret (true, "Franklin completed")
     else ret (false, "Agent failed: " +:+ err))
    (fun e => ret (false, exn_str e)).

(** The script run with [sys.argv = argv]: the texts it hands to [print], one
    per call and in order, and the status it exits with.  [print] writes
    each text followed by a line break; a text that holds line breaks, as the
    error output of a process can, makes several lines. *)
Definition judge_script (E : env) (argv : list string) : M (list string * Z) :=
  match argv with
  | [_; chunk_file; queue_file] =>
      let* r := spawn_franklin E chunk_file queue_file in
      let '(success, message) := r in
      ret ([message], if success then 0%Z else 1%Z)
  | _ => ret (["Usage: spawn-memory-judge.py <chunk_file> <queue_file>"], 1%Z)
  end.

(** ** Vocabulary of the further properties *)

(** Every character of [s] passes [P]. *)
Fixpoint str_forall (P : ascii -> bool) (s : string) : bool :=
  match s with
  | EmptyString => true
  | String c s' => P c && str_forall P s'
  end.

(** A lower-case hexadecimal digit. *)
Definition is_hex (c : ascii) : bool :=
  let n := PyStr.code c in
  (((48 <=? n) && (n <=? 57)) || ((97 <=? n) && (n <=? 102)))%N.

(** A session as the session list is expected to give it: a [dict] whose
    [key], when it has one, is a string. *)
Definition plain_session (s : json) : bool :=
  match s with
  | JObj fields =>
      match Py.dict_get fields "key" with
      | Some (JStr _) | None => true
      | Some _ => false
      end
  | _ => false
  end.

(** The key of the session contains "main". *)
Definition has_main (s : json) : bool :=
  match s with
  | JObj fields =>
      match Py.dict_get fields "key" with
      | Some (JStr k) => PyStr.contains "main" k
      | _ => false
      end
  | _ => false
  end.


(** [msg] yields a text, and if [main] would capture that text, its marker
    is in the log of [w]. *)
Definition settled (w : world) (msg : json) : Prop :=
  exists text,
    extract_text_content msg = Ok text /\
    (text <> "" -> is_important text = true ->
     PyStr.contains (marker (get_hash text)) (log_content w) = true).

(** The result of [m] does not depend on the world it runs in. *)
Definition oblivious {A} (m : M A) : Prop :=
  forall w1 w2, fst (m w1) = fst (m w2).


(* ===================================================================== *)
(** * Part II: properties *)
(* ===================================================================== *)

(** ** The digest against published MD5 values *)

Example md5_empty : MD5.hexdigest (PyStr.encode "") = "d41d8cd98f00b204e9800998ecf8427e".
Proof. vm_compute. reflexivity. Qed.

Example md5_abc : MD5.hexdigest (PyStr.encode "abc") = "900150983cd24fb0d6963f7d28e17f72".
Proof. vm_compute. reflexivity. Qed.

Example md5_fox :
  MD5.hexdigest (PyStr.encode "The quick brown fox jumps over the lazy dog")
  = "9e107d9d372bb6826bd81d3542a419d6".
Proof. vm_compute. reflexivity. Qed.

(** ** Trimming *)

Example strip_both_ends : PyStr.strip ("  " +:+ nl +:+ "a  b " +:+ nl) = "a  b".
Proof. reflexivity. Qed.

Example strip_blank : PyStr.strip ("  " +:+ nl) = "".
Proof. reflexivity. Qed.

(** ** The fixed paths *)

Example STREAM_FILE_eq : STREAM_FILE = "/root/clawd/memory/stream.log".
Proof. reflexivity. Qed.
Example STATE_FILE_eq : STATE_FILE = "/root/clawd/.memory-capture-state".
Proof. reflexivity. Qed.
Example dirname_STREAM_FILE : Path.dirname STREAM_FILE = "/root/clawd/memory".
Proof. reflexivity. Qed.
Example ancestors_STREAM_dir :
  Path.ancestors (Path.dirname STREAM_FILE) = ["/root"; "/root/clawd"; "/root/clawd/memory"].
Proof. reflexivity. Qed.

(** ** Strings *)

Module PyStrFacts.
Import PyStr.

Lemma append_nil_l s : "" +:+ s = s.
Proof. reflexivity. Qed.

Lemma append_cons c a b : String c a +:+ b = String c (a +:+ b).
Proof. reflexivity. Qed.

Lemma append_nil_r s : s +:+ "" = s.
Proof.
  induction s as [|c s IH]; [reflexivity|].
  now rewrite append_cons, IH.
Qed.

Lemma append_assoc a b c : (a +:+ b) +:+ c = a +:+ (b +:+ c).
Proof.
  induction a as [|x a IH]; [reflexivity|].
  now rewrite !append_cons, IH.
Qed.


Lemma prefix_nil s : String.prefix "" s = true.
Proof. now destruct s. Qed.

Lemma prefix_iff p : forall s, String.prefix p s = true <-> exists t, s = p +:+ t.
Proof.
  induction p as [|c p IH]; intros s.
  - rewrite prefix_nil. split; [intros _; now exists s | reflexivity].
  - destruct s as [|d s]; simpl.
    + split; [discriminate | intros [t Ht]; discriminate].
    + destruct (ascii_dec c d) as [->|Hne].
      * rewrite IH. split; intros [t Ht]; exists t.
        -- now rewrite append_cons, Ht.
        -- rewrite append_cons in Ht. congruence.
      * split; [discriminate | intros [t Ht]; rewrite append_cons in Ht; congruence].
Qed.

Lemma contains_empty n : contains n "" = String.prefix n "".
Proof. simpl. apply orb_false_r. Qed.

Lemma contains_cons n c h :
  contains n (String c h) = String.prefix n (String c h) || contains n h.
Proof. reflexivity. Qed.

Lemma contains_iff n : forall h, contains n h = true <-> exists a b, h = a +:+ n +:+ b.
Proof.
  induction h as [|c h IH]; [rewrite contains_empty | rewrite contains_cons].
  - rewrite prefix_iff. split.
    + intros [t Ht]. now exists "", t.
    + intros (a & b & Hab). destruct a as [|x a]; [now exists b | discriminate].
  - rewrite orb_true_iff, prefix_iff, IH. split.
    + intros [[t Ht] | (a & b & Hab)].
      * now exists "", t.
      * exists (String c a), b. now rewrite append_cons, Hab.
    + intros (a & b & Hab). destruct a as [|x a].
      * left. now exists b.
      * right. exists a, b. rewrite append_cons in Hab. congruence.
Qed.

Lemma contains_app_l n a b : contains n a = true -> contains n (a +:+ b) = true.
Proof.
  rewrite !contains_iff. intros (x & y & ->).
  exists x, (y +:+ b). now rewrite !append_assoc.
Qed.

Lemma contains_app_r n a b : contains n b = true -> contains n (a +:+ b) = true.
Proof.
  rewrite !contains_iff. intros (x & y & ->).
  exists (a +:+ x), y. now rewrite !append_assoc.
Qed.


Lemma contains_nil n : n <> "" -> contains n "" = false.
Proof. destruct n; [congruence | reflexivity]. Qed.

Lemma occurrences_cons n c h :
  occurrences n (String c h)
  = (if String.prefix n (String c h) then 1 else 0) + occurrences n h.
Proof. reflexivity. Qed.

Lemma contains_occurrences n h : contains n h = true <-> 0 < occurrences n h.
Proof.
  induction h as [|c h IH].
  - destruct n; simpl; split; (lia || discriminate || reflexivity).
  - rewrite contains_cons, occurrences_cons.
    destruct (String.prefix n (String c h)).
    + split; [lia | reflexivity].
    + exact IH.
Qed.


Lemma lower_app a b : lower (a +:+ b) = lower a +:+ lower b.
Proof.
  induction a as [|x a IH]; [reflexivity|].
  rewrite append_cons. simpl. now rewrite IH.
Qed.

Lemma lower_length s : String.length (lower s) = String.length s.
Proof. induction s as [|x s IH]; simpl; [reflexivity | now rewrite IH]. Qed.

Lemma lower_char_idem c : lower_char (lower_char c) = lower_char c.
Proof. destruct c as [[] [] [] [] [] [] [] []]; reflexivity. Qed.

Lemma lower_idem s : lower (lower s) = lower s.
Proof. induction s as [|x s IH]; simpl; [reflexivity | now rewrite lower_char_idem, IH]. Qed.

(** A split of the lowered text is the lowering of a split of the text. *)
Lemma lower_split a : forall s b,
  lower s = a +:+ b -> exists s1 s2, s = s1 +:+ s2 /\ lower s1 = a /\ lower s2 = b.
Proof.
  induction a as [|x a IH]; intros s b H.
  - now exists "", s.
  - destruct s as [|c s]; [discriminate|].
    rewrite append_cons in H. simpl in H.
    injection H as Hc Hs. destruct (IH _ _ Hs) as (s1 & s2 & -> & H1 & H2).
    exists (String c s1), s2. rewrite append_cons. simpl. now rewrite Hc, H1.
Qed.

(** What the code tests, [kw in text.lower()] with [kw] in lower case, is
    the case-insensitive substring test. *)
Lemma contains_lower_iff kw text :
  contains (lower kw) (lower text) = true <-> matches_nocase kw text.
Proof.
  rewrite contains_iff. unfold matches_nocase, same_nocase. split.
  - intros (a & b & H).
    destruct (lower_split _ _ _ H) as (pre & rest & -> & Hpre & Hrest).
    destruct (lower_split _ _ _ Hrest) as (m & post & -> & Hm & Hpost).
    now exists pre, m, post.
  - intros (pre & m & post & -> & Hm).
    exists (lower pre), (lower post). now rewrite !lower_app, Hm.
Qed.

(** A literal occurrence is in particular a case-insensitive one. *)
Lemma contains_matches_nocase kw text :
  contains kw text = true -> matches_nocase kw text.
Proof.
  rewrite contains_iff. intros (a & b & ->). now exists a, kw, b.
Qed.

End PyStrFacts.

(** ** Keyword tests: [is_important] and [get_category] *)

Section Keywords.
Import PyStr PyStrFacts.

Lemma keywords_lowercase : Forall lowercase keywords.
Proof. repeat constructor. Qed.

Lemma groups_lowercase : Forall (fun g => Forall lowercase (snd g)) groups.
Proof. repeat constructor. Qed.

(** [any(kw in text.lower() for kw in kws)], for lower-case keywords, says
    that some keyword occurs in the text whatever the case. *)
Lemma any_in_iff kws text :
  Forall lowercase kws ->
  any_in kws (lower text) = true <-> exists kw, In kw kws /\ matches_nocase kw text.
Proof.
  intros Hlow. unfold any_in. rewrite existsb_exists.
  rewrite Forall_forall in Hlow.
  split; intros (kw & Hin & H); exists kw; split; trivial.
  - apply contains_lower_iff. rewrite (Hlow kw); [exact H | now apply list_elem_of_In].
  - apply contains_lower_iff in H. rewrite (Hlow kw) in H; [exact H | now apply list_elem_of_In].
Qed.

Lemma any_in_concat (ls : list (list string)) t :
  any_in (concat ls) t = existsb (fun l => any_in l t) ls.
Proof.
  unfold any_in. induction ls as [|l ls IH]; simpl; [reflexivity|].
  now rewrite existsb_app, IH.
Qed.

Lemma find_first {A} (f : A -> bool) before g after :
  f g = true -> (forall x, In x before -> f x = false) ->
  find f (before ++ g :: after) = Some g.
Proof.
  intros Hg. induction before as [|b before IH]; intros Hb; simpl.
  - now rewrite Hg.
  - rewrite (Hb b) by now left. apply IH. intros x Hx. apply Hb. now right.
Qed.

Lemma find_none_existsb {A} (f : A -> bool) l : existsb f l = false -> find f l = None.
Proof.
  induction l as [|x l IH]; simpl; [reflexivity|].
  destruct (f x); simpl; [discriminate | exact IH].
Qed.

(** The chain of [if]/[elif] of [get_category] walks the table, first row
    first. *)
Lemma get_category_table text : get_category text = classify_by_table text.
Proof.
  unfold get_category, classify_by_table, groups. cbn [find snd fst].
  repeat match goal with
         | |- context [if any_in ?l ?t then _ else _] => destruct (any_in l t)
         end; reflexivity.
Qed.

Lemma group_matches_iff g text :
  In g groups ->
  any_in (snd g) (lower text) = true <-> group_matches g text.
Proof.
  intros Hg. apply any_in_iff.
  pose proof groups_lowercase as H. rewrite Forall_forall in H.
  apply H. now apply list_elem_of_In.
Qed.

Lemma get_category_outcome text :
  any_in category_keywords (lower text) = false -> get_category text = "outcome".
Proof.
  intros H. rewrite get_category_table. unfold classify_by_table.
  unfold category_keywords in H. rewrite any_in_concat in H.
  assert (Hnone : find (fun g => any_in (snd g) (lower text)) groups = None).
  { revert H. generalize groups. intros gs.
    induction gs as [|g gs IH]; simpl; [reflexivity|].
    destruct (any_in (snd g) (lower text)); simpl; [discriminate | exact IH]. }
  now rewrite Hnone.
Qed.

Lemma is_important_intro text :
  40 < String.length text ->
  (exists kw, In kw keywords /\ matches_nocase kw text) ->
  is_important text = true.
Proof.
  intros Hlen Hkw. unfold is_important. apply andb_true_iff. split.
  - now apply (any_in_iff _ _ keywords_lowercase).
  - now apply Nat.ltb_lt.
Qed.

Lemma In_by_eqb (kw : string) (l : list string) :
  existsb (String.eqb kw) l = true <-> In kw l.
Proof.
  rewrite existsb_exists. split.
  - intros (x & Hx & Heq). apply String.eqb_eq in Heq. now subst.
  - intros H. exists kw. split; [exact H | apply String.eqb_refl].
Qed.

Lemma category_keywords_important kw : In kw category_keywords -> In kw keywords.
Proof.
  intros H. apply In_by_eqb.
  assert (Hall : forallb (fun k => existsb (String.eqb k) keywords) category_keywords = true)
    by (vm_compute; reflexivity).
  rewrite forallb_forall in Hall. now apply Hall.
Qed.

Lemma uncategorised_spec kw :
  In kw uncategorised <-> In kw keywords /\ ~ In kw category_keywords.
Proof.
  assert (H1 : forallb (fun k => existsb (String.eqb k) keywords
                                 && negb (existsb (String.eqb k) category_keywords))
                       uncategorised = true) by (vm_compute; reflexivity).
  assert (H2 : forallb (fun k => existsb (String.eqb k) category_keywords
                                 || existsb (String.eqb k) uncategorised)
                       keywords = true) by (vm_compute; reflexivity).
  rewrite forallb_forall in H1, H2. split.
  - intros Hin. specialize (H1 kw Hin).
    apply andb_true_iff in H1 as [Ha Hb]. split; [now apply In_by_eqb|].
    intros Hc. apply In_by_eqb in Hc. now rewrite Hc in Hb.
  - intros [Hk Hn]. specialize (H2 kw Hk).
    apply orb_true_iff in H2 as [Hc | Hu]; [|now apply In_by_eqb].
    apply In_by_eqb in Hc. contradiction.
Qed.

End Keywords.

(** C4.  [is_important text] is true exactly when [text] has more than 40
    characters and some keyword of the fixed list occurs in it as a
    case-insensitive substring; so a text of fewer than 41 characters is
    never important, whatever keywords it holds. *)
Theorem C4_is_important_iff (text : string) :
  (is_important text = true <->
     40 < String.length text /\
     exists kw, In kw keywords /\ matches_nocase kw text)
  /\ (String.length text < 41 -> is_important text = false).
Proof.
  unfold is_important. split.
  - rewrite andb_true_iff, Nat.ltb_lt, (any_in_iff _ _ keywords_lowercase). tauto.
  - intros Hlen. apply andb_false_iff. right. apply Nat.ltb_ge. lia.
Qed.

Lemma C4_short_text_witness :
  is_important "decided: fixed the bug, problem solved" = false.
Proof.
  apply (proj2 (C4_is_important_iff "decided: fixed the bug, problem solved")).
  vm_compute. lia.
Defined.

(** C5.  [get_category] takes the keyword groups in the order decision,
    discovery, implementation, issue, success and returns the category of the
    first group one of whose keywords occurs in the text as a
    case-insensitive substring, and [outcome] when no group has one; so a
    text with both "decided" and "fixed" is a decision. *)
Theorem C5_get_category_priority (text : string) :
  map fst groups = ["decision"; "discovery"; "implementation"; "issue"; "success"]
  /\ (forall before g after,
        groups = before ++ g :: after ->
        group_matches g text ->
        (forall g', In g' before -> ~ group_matches g' text) ->
        get_category text = fst g)
  /\ ((forall g, In g groups -> ~ group_matches g text) -> get_category text = "outcome")
  /\ (matches_nocase "decided" text -> matches_nocase "fixed" text ->
      get_category text = "decision").
Proof.
  split; [reflexivity|]. split; [|split].
  - intros before g after Hsplit Hg Hbefore.
    rewrite get_category_table. unfold classify_by_table. rewrite Hsplit.
    assert (Hin : forall x, In x (before ++ g :: after) -> In x groups)
      by (intros x Hx; now rewrite Hsplit).
    rewrite (find_first _ before g after); [reflexivity | |].
    + apply group_matches_iff; [apply Hin, in_elt | exact Hg].
    + intros x Hx. apply not_true_is_false. intros Ht.
      apply (Hbefore x Hx). apply group_matches_iff; [|exact Ht].
      apply Hin, in_or_app. now left.
  - intros Hnone. rewrite get_category_table. unfold classify_by_table.
    rewrite find_none_existsb; [reflexivity|].
    apply not_true_is_false. intros Ht. apply existsb_exists in Ht as (g & Hg & Hm).
    apply (Hnone g Hg). now apply group_matches_iff.
  - intros Hdecided _. unfold get_category.
    assert (H : any_in ["decided"; "decision"; "determined"] (PyStr.lower text) = true).
    { apply any_in_iff; [repeat constructor|]. exists "decided". split; [now left | exact Hdecided]. }
    now rewrite H.
Qed.

Lemma C5_tie_break_witness :
  get_category "We fixed the parser and DECIDED to keep it" = "decision".
Proof.
  apply (proj2 (proj2 (proj2
           (C5_get_category_priority "We fixed the parser and DECIDED to keep it")))).
  - apply PyStrFacts.contains_lower_iff. vm_compute. reflexivity.
  - apply PyStrFacts.contains_lower_iff. vm_compute. reflexivity.
Defined.

(** C10.  Every keyword of a [get_category] group is a keyword of
    [is_important], which has nine more: "working", "achieved", "solved",
    "blocked", "learned", "identified", "choose", "selected", "committed".
    A text of more than 40 characters whose matching keywords are all among
    these nine (and which matches one of them) is important and is
    classified [outcome]; such texts exist. *)
Theorem C10_important_yet_outcome :
  (forall kw, In kw category_keywords -> In kw keywords)
  /\ (forall kw, In kw uncategorised <-> In kw keywords /\ ~ In kw category_keywords)
  /\ length keywords = length category_keywords + 9
  /\ (forall text,
        40 < String.length text ->
        (exists kw, In kw uncategorised /\ matches_nocase kw text) ->
        (forall kw, In kw keywords -> matches_nocase kw text -> In kw uncategorised) ->
        is_important text = true /\ get_category text = "outcome")
  /\ (exists text, is_important text = true /\ get_category text = "outcome").
Proof.
  split; [exact category_keywords_important|].
  split; [exact uncategorised_spec|].
  split; [reflexivity|]. split.
  - intros text Hlen (kw & Hkw & Hm) Honly. split.
    + apply is_important_intro; [exact Hlen|].
      exists kw. split; [now apply uncategorised_spec | exact Hm].
    + apply get_category_outcome. apply not_true_is_false. intros Ht.
      assert (Hlow : Forall lowercase category_keywords) by repeat constructor.
      apply (any_in_iff _ _ Hlow) in Ht as (k & Hk & Hmk).
      assert (Hu : In k uncategorised)
        by (apply Honly; [now apply category_keywords_important | exact Hmk]).
      apply uncategorised_spec in Hu as [_ Hn]. contradiction.
  - exists "The retry loop is working again after the deploy".
    vm_compute. split; reflexivity.
Qed.

Lemma C10_working_witness :
  is_important "The retry loop is working again after the deploy" = true
  /\ get_category "The retry loop is working again after the deploy" = "outcome".
Proof.
  apply (proj1 (proj2 (proj2 (proj2 C10_important_yet_outcome)))
           "The retry loop is working again after the deploy").
  - vm_compute. lia.
  - exists "working". split.
    + apply In_by_eqb. reflexivity.
    + apply PyStrFacts.contains_lower_iff. vm_compute. reflexivity.
  - intros kw Hin Hm. apply PyStrFacts.contains_lower_iff in Hm.
    assert (Hall : forallb (fun k =>
                     implb (PyStr.contains (PyStr.lower k)
                              (PyStr.lower "The retry loop is working again after the deploy"))
                           (existsb (String.eqb k) uncategorised)) keywords = true)
      by (vm_compute; reflexivity).
    rewrite forallb_forall in Hall. specialize (Hall kw Hin).
    rewrite Hm in Hall. now apply In_by_eqb.
Defined.

(** ** [extract_text_content] *)

Lemma collect_text_step ts item :
  collect_text (Ok ts) item
  = Ok (if is_text_block item then ts ++ [text_field item] else ts).
Proof.
  destruct item as [| b | q | s | items | fields]; try reflexivity.
  unfold collect_text, is_text_block, text_field. simpl.
  destruct (Py.dict_get fields "type") as [ty|]; simpl; [|reflexivity].
  now destruct (Py.eq_str ty "text").
Qed.

Lemma collect_text_fold items : forall ts,
  fold_left collect_text items (Ok ts)
  = Ok (ts ++ map text_field (List.filter is_text_block items)).
Proof.
  induction items as [|item items IH]; intros ts; cbn [fold_left List.filter].
  - simpl. now rewrite app_nil_r.
  - rewrite collect_text_step. destruct (is_text_block item); cbn [map].
    + rewrite IH. now rewrite <- app_assoc.
    + apply IH.
Qed.

Lemma strs_map_JStr texts : Py.strs (map JStr texts) = Ok texts.
Proof. induction texts as [|t texts IH]; simpl; [reflexivity | now rewrite IH]. Qed.

(** C7.  On a message whose [content] is a string, [extract_text_content]
    returns that string trimmed.  On a message whose [content] is a list, it
    keeps exactly the items that are dicts tagged [type: text], whatever
    else the list holds, joins their [text] fields with single spaces (as
    [str.join] does: a missing field counts as the empty string, a field
    that is no string makes the join raise) and trims the result. *)
Theorem C7_extract_text_content (fields : list (string * json)) :
  (forall s,
     Py.dict_get fields "content" = Some (JStr s) ->
     extract_text_content (JObj fields) = Ok (PyStr.strip s))
  /\ (forall items,
        Py.dict_get fields "content" = Some (JArr items) ->
        extract_text_content (JObj fields)
        = let? joined := Py.join " " (map text_field (List.filter is_text_block items)) in
          Ok (PyStr.strip joined))
  /\ (forall items texts,
        Py.dict_get fields "content" = Some (JArr items) ->
        map text_field (List.filter is_text_block items) = map JStr texts ->
        extract_text_content (JObj fields) = Ok (PyStr.strip (PyStr.join " " texts))).
Proof.
  assert (Hlist : forall items,
            Py.dict_get fields "content" = Some (JArr items) ->
            extract_text_content (JObj fields)
            = let? joined := Py.join " " (map text_field (List.filter is_text_block items)) in
              Ok (PyStr.strip joined)).
  { intros items H. unfold extract_text_content. simpl. rewrite H. simpl.
    now rewrite collect_text_fold. }
  split; [|split].
  - intros s H. unfold extract_text_content. simpl. now rewrite H.
  - exact Hlist.
  - intros items texts H Htexts. rewrite (Hlist items H), Htexts.
    unfold Py.join. now rewrite strs_map_JStr.
Qed.

Lemma C7_blocks_witness :
  extract_text_content
    (JObj [("role", JStr "assistant");
           ("content", JArr [ JObj [("type", JStr "text"); ("text", JStr "  We fixed")];
                              JObj [("type", JStr "tool_use"); ("text", JStr "ignored")];
                              JStr "stray";
                              JObj [("type", JStr "text"); ("text", JStr "the bug. ")] ])])
  = Ok "We fixed the bug.".
Proof.
  apply (proj2 (proj2 (C7_extract_text_content _))
           [ JObj [("type", JStr "text"); ("text", JStr "  We fixed")];
             JObj [("type", JStr "tool_use"); ("text", JStr "ignored")];
             JStr "stray";
             JObj [("type", JStr "text"); ("text", JStr "the bug. ")] ]
           ["  We fixed"; "the bug. "]); reflexivity.
Defined.

(** ** The stream log: [already_captured] and [append_to_stream] *)

Section StreamLog.
Import PyStr PyStrFacts.
#[local] Set Warnings "-clear-no-such-hyp".

Lemma marker_nonempty d : marker d <> "".
Proof. discriminate. Qed.

(** [already_captured] answers from the log's text when the log can be
    read, and [False] otherwise. *)
Lemma already_captured_eq hash_val w :
  already_captured hash_val w
  = (Ok (log_readable w && contains (marker hash_val) (log_content w)), after_check w).
Proof.
  unfold already_captured, after_check, log_readable, log_content.
  unfold bind, path_exists, try_except, read_file, ret.
  generalize STREAM_FILE. intros p. cbn [files record].
  destruct (files w !! p) as [f|] eqn:Hf.
  - rewrite bool_decide_eq_true_2 by eauto. cbn [orb negb]. cbn [files record].
    rewrite Hf. destruct (readable f); reflexivity.
  - rewrite bool_decide_eq_false_2 by (intros [x Hx]; discriminate). cbn [orb].
    rewrite (contains_nil _ (marker_nonempty hash_val)). cbn [andb].
    destruct (bool_decide (p ∈ dirs w)); cbn [negb]; [|reflexivity].
    cbn [files record]. now rewrite Hf.
Qed.

Lemma files_after_check w : files (after_check w) = files w.
Proof. unfold after_check. now destruct (_ || _). Qed.

Lemma dirs_after_check w : dirs (after_check w) = dirs w.
Proof. unfold after_check. now destruct (_ || _). Qed.

Lemma stderr_after_check w : stderr (after_check w) = stderr w.
Proof. unfold after_check. now destruct (_ || _). Qed.

Lemma ticks_after_check w : ticks (after_check w) = ticks w.
Proof. unfold after_check. now destruct (_ || _). Qed.

Lemma spawned_after_check w : spawned (after_check w) = spawned w.
Proof. unfold after_check. now destruct (_ || _). Qed.

Lemma log_content_after_check w : log_content (after_check w) = log_content w.
Proof. unfold log_content. now rewrite files_after_check. Qed.

Lemma log_readable_after_check w : log_readable (after_check w) = log_readable w.
Proof. unfold log_readable. now rewrite files_after_check. Qed.

Lemma writes_entry_block timestamp category text :
  String.concat ""
    [ nl +:+ "---" +:+ nl;
      "[" +:+ timestamp +:+ "] [" +:+ category +:+ "]" +:+ nl;
      text +:+ nl;
      "hash:" +:+ get_hash text +:+ nl ]
  = entry_block timestamp category text.
Proof.
  unfold entry_block, marker. cbn [String.concat].
  now rewrite !append_nil_l, !append_assoc.
Qed.

Lemma with_dirs_same w : with_dirs (dirs w) w = w.
Proof. now destruct w. Qed.

Lemma can_make_mono w w' d :
  files w' = files w -> readonly w' = readonly w -> dirs w ⊆ dirs w' ->
  can_make w d = true -> can_make w' d = true.
Proof.
  unfold can_make. intros -> -> Hsub H.
  apply orb_true_iff in H as [H|H]; [|now rewrite H, orb_true_r].
  apply bool_decide_eq_true in H. rewrite bool_decide_eq_true_2; [reflexivity|].
  now apply Hsub.
Qed.

(** The walk leaves everything but the directories alone, makes no
    directory outside the chain, and when it gets through the whole chain is
    there. *)
Lemma mkdir_chain_outcome ds : forall w,
  exists made,
    snd (mkdir_chain ds w) = with_dirs made w
    /\ dirs w ⊆ made /\ made ⊆ dirs w ∪ list_to_set ds
    /\ (fst (mkdir_chain ds w) = Ok tt -> made = dirs w ∪ list_to_set ds)
    /\ (forall e, fst (mkdir_chain ds w) = Raise e -> In (exn_class e) write_errors).
Proof.
  induction ds as [|d rest IH]; intros w; cbn [mkdir_chain].
  - exists (dirs w). cbn [fst snd]. rewrite with_dirs_same.
    split; [reflexivity|]. split; [set_solver|]. split; [set_solver|].
    split; [set_solver | discriminate].
  - case_bool_decide as Hd.
    { destruct (IH w) as (made & Hsnd & Hlo & Hhi & Hok & Herr). exists made.
      split; [exact Hsnd|]. split; [exact Hlo|]. split; [set_solver|].
      split; [|exact Herr]. intros H. rewrite (Hok H). set_solver. }
    case_bool_decide as Hf.
    { exists (dirs w). cbn [fst snd]. rewrite with_dirs_same.
      split; [reflexivity|]. split; [set_solver|]. split; [set_solver|].
      split; [discriminate|]. intros e H. injection H as <-.
      destruct rest; cbn; tauto. }
    case_bool_decide as Hp.
    { exists (dirs w). cbn [fst snd]. rewrite with_dirs_same.
      split; [reflexivity|]. split; [set_solver|]. split; [set_solver|].
      split; [discriminate|]. intros e H. injection H as <-. cbn. tauto. }
    destruct (IH (with_dirs (dirs w ∪ {[d]}) w)) as (made & Hsnd & Hlo & Hhi & Hok & Herr).
    cbn [with_dirs dirs] in *. exists made.
    split; [exact Hsnd|]. split; [set_solver|]. split; [set_solver|].
    split; [|exact Herr]. intros H. rewrite (Hok H). set_solver.
Qed.

(** When each directory of the chain can be had, the walk gets through. *)
Lemma mkdir_chain_ok ds : forall w,
  forallb (can_make w) ds = true -> fst (mkdir_chain ds w) = Ok tt.
Proof.
  induction ds as [|d rest IH]; intros w H; [reflexivity|].
  cbn [forallb] in H. apply andb_true_iff in H as [Hd Hrest]. cbn [mkdir_chain].
  case_bool_decide as Hin; [now apply IH|].
  unfold can_make in Hd. rewrite bool_decide_eq_false_2 in Hd by exact Hin.
  cbn [orb] in Hd. apply andb_true_iff in Hd as [Hf Hp].
  apply negb_true_iff in Hf, Hp. rewrite Hf, Hp.
  apply IH. apply forallb_forall. intros x Hx.
  apply (can_make_mono w); cbn [files readonly dirs]; trivial; [set_solver|].
  rewrite forallb_forall in Hrest. now apply Hrest.
Qed.

(** And when one of them cannot, the walk stops there.  The chain names each
    directory once. *)
Lemma mkdir_chain_stops ds : NoDup ds -> forall w,
  forallb (can_make w) ds = false -> exists e, fst (mkdir_chain ds w) = Raise e.
Proof.
  induction 1 as [|d rest Hd _ IH]; intros w H; [discriminate|].
  cbn [forallb] in H. cbn [mkdir_chain]. unfold can_make at 1 in H.
  destruct (bool_decide (d ∈ dirs w)) eqn:Hin; [now apply IH|].
  destruct (bool_decide (is_Some (files w !! d))); [eauto|].
  destruct (bool_decide (Path.dirname d ∈ readonly w)); [eauto|].
  cbn [orb negb andb] in H. apply IH. rewrite <- H.
  clear IH H. induction rest as [|x rest IHrest]; [reflexivity|].
  apply not_elem_of_cons in Hd as [Hx Hrest]. cbn [forallb].
  rewrite (IHrest Hrest). f_equal. unfold can_make. cbn [files dirs readonly].
  f_equal. apply bool_decide_ext. set_solver.
Qed.

Lemma stream_chain_NoDup : NoDup (Path.ancestors (Path.dirname STREAM_FILE)).
Proof. vm_compute. repeat (constructor; [set_solver|]). constructor. Qed.

Lemma stream_dir_made :
  Path.dirname STREAM_FILE ∈ Path.ancestors (Path.dirname STREAM_FILE).
Proof. apply list_elem_of_In. vm_compute. tauto. Qed.

Lemma STREAM_not_made : STREAM_FILE ∉ Path.ancestors (Path.dirname STREAM_FILE).
Proof.
  intros H. apply list_elem_of_In in H. vm_compute in H.
  repeat (destruct H as [H|H]; [discriminate|]). exact H.
Qed.

Lemma trace_after_check w :
  exists evs, trace (after_check w) = trace w ++ evs
              /\ Forall (fun ev => event_path ev = STREAM_FILE
                                   \/ event_path ev = Path.dirname STREAM_FILE) evs.
Proof.
  unfold after_check. destruct (_ || _); cbn [record trace].
  - exists [EvExists STREAM_FILE; EvRead STREAM_FILE].
    split; [now rewrite <- app_assoc|].
    apply List.Forall_cons; [now left|]. apply List.Forall_cons; [now left|]. constructor.
  - exists [EvExists STREAM_FILE]. split; [reflexivity|].
    apply List.Forall_cons; [now left | constructor].
Qed.

Lemma readonly_after_check w : readonly (after_check w) = readonly w.
Proof. unfold after_check. now destruct (_ || _). Qed.

(** [append_to_stream], case by case. *)
Lemma append_to_stream_outcome E text category w r w' :
  append_to_stream E text category w = (r, w') -> append_outcome E text category w r w'.
Proof.
  unfold append_to_stream, bind at 1. rewrite already_captured_eq.
  destruct (log_readable w && contains _ _) eqn:Hcap.
  { intros H. injection H as <- <-. now constructor. }
  destruct (trace_after_check w) as (evs & Htr & Hevs).
  set (dir := Path.dirname STREAM_FILE) in *.
  set (w1 := record (EvMakedirs dir) (after_check w)).
  assert (Hsame : forallb (can_make w1) (Path.ancestors dir)
                  = forallb (can_make w) (Path.ancestors dir)).
  { induction (Path.ancestors dir) as [|d ds IHds]; [reflexivity|]. cbn [forallb].
    rewrite IHds. f_equal. unfold can_make, w1. cbn [record dirs files readonly].
    now rewrite dirs_after_check, files_after_check, readonly_after_check. }
  unfold bind at 1. unfold makedirs. fold dir. fold w1.
  destruct (mkdir_chain_outcome (Path.ancestors dir) w1)
    as (made & Hsnd & Hlo & Hhi & Hok & Herr).
  pose proof (mkdir_chain_ok (Path.ancestors dir) w1) as Hgo.
  pose proof (mkdir_chain_stops _ stream_chain_NoDup w1) as Hstop. fold dir in Hstop.
  rewrite Hsame in Hgo, Hstop.
  destruct (mkdir_chain _ w1) as [[[]|e] w2]; cbn [fst snd] in *; subst w2;
    unfold w1 in *; cbn [record dirs files readonly] in *;
    rewrite ?dirs_after_check, ?files_after_check, ?readonly_after_check in *.
  2:{ intros H. injection H as <- <-. apply Refused; [exact Hcap | | now apply Herr |].
      - unfold log_appendable. fold dir.
        destruct (forallb (can_make w) (Path.ancestors dir)); [|reflexivity].
        now specialize (Hgo eq_refl).
      - unfold refusal. cbn [with_dirs files readonly stderr spawned dirs trace record].
        rewrite files_after_check, readonly_after_check, stderr_after_check,
          spawned_after_check.
        repeat split; trivial.
        exists (evs ++ [EvMakedirs dir]). rewrite Htr, <- app_assoc. split; [reflexivity|].
        apply Forall_app. split; [exact Hevs|].
        apply List.Forall_cons; [now right | constructor]. }
  specialize (Hok eq_refl). subst made. clear Hlo Hhi Hgo Herr.
  assert (Hchain : forallb (can_make w) (Path.ancestors dir) = true).
  { destruct (forallb (can_make w) (Path.ancestors dir)); [reflexivity|].
    destruct (Hstop eq_refl) as [e He]. discriminate. }
  clear Hstop Hsame.
  unfold bind, now, append_file, ret.
  cbn [with_dirs files dirs readonly stderr trace spawned ticks record].
  rewrite writes_entry_block.
  rewrite files_after_check, stderr_after_check, ticks_after_check, spawned_after_check,
    readonly_after_check.
  rewrite (bool_decide_eq_true_2 (dir ∈ _));
    [|apply elem_of_union_r, elem_of_list_to_set, stream_dir_made].
  cbn [negb].
  assert (Hdir : STREAM_FILE ∈ dirs w ∪ list_to_set (Path.ancestors dir)
                 <-> STREAM_FILE ∈ dirs w).
  { rewrite elem_of_union, elem_of_list_to_set. split; [|now left].
    intros [H|H]; [exact H | destruct (STREAM_not_made H)]. }
  rewrite (bool_decide_ext _ _ Hdir).
  assert (Hrefused : forall e,
            In (exn_class e) write_errors ->
            log_appendable w = false ->
            append_outcome E text category w (Raise e)
              (record (EvAppend STREAM_FILE)
                 (World (files w) (dirs w ∪ list_to_set (Path.ancestors dir)) (readonly w)
                        (stderr w) (trace (after_check w) ++ [EvMakedirs dir])
                        (spawned w) (Datatypes.S (ticks w))))).
  { intros e Hcls Hno. apply Refused; [exact Hcap | exact Hno | exact Hcls |].
    unfold refusal. cbn [record files readonly stderr spawned dirs trace].
    repeat split; trivial; [set_solver|].
    exists (evs ++ [EvMakedirs dir; EvAppend STREAM_FILE]).
    rewrite Htr, <- !app_assoc. split; [reflexivity|].
    apply Forall_app. split; [exact Hevs|].
    apply List.Forall_cons; [now right|]. apply List.Forall_cons; [now left|]. constructor. }
  pose proof (Appended E text category w Hcap) as Hgood.
  unfold log_appendable in Hrefused, Hgood. fold dir in Hrefused, Hgood. fold dir.
  rewrite Hchain in Hrefused, Hgood.
  destruct (bool_decide (STREAM_FILE ∈ dirs w)).
  { intros H. injection H as <- <-. apply Hrefused; [cbn; tauto | reflexivity]. }
  destruct (bool_decide (STREAM_FILE ∈ readonly w)).
  { intros H. injection H as <- <-. apply Hrefused; [cbn; tauto | reflexivity]. }
  unfold after_append, log_readable, log_content in Hgood. fold dir in Hgood.
  destruct (files w !! STREAM_FILE) as [f|] eqn:Hf.
  - rewrite (bool_decide_eq_true_2 (is_Some (Some f))) in Hgood by eauto.
    intros H. injection H as <- <-. rewrite <- app_assoc. now apply Hgood.
  - rewrite (bool_decide_eq_false_2 (is_Some None)) in Hrefused, Hgood
      by (intros [x Hx]; discriminate).
    rewrite append_nil_l in Hgood.
    destruct (bool_decide (dir ∈ readonly w)).
    + intros H. injection H as <- <-. apply Hrefused; [cbn; tauto | reflexivity].
    + intros H. injection H as <- <-. rewrite <- app_assoc. now apply Hgood.
Qed.

(** On a log that can be appended to, the call returns. *)
Lemma append_to_stream_eq E text category w :
  log_appendable w = true ->
  append_to_stream E text category w
  = if log_readable w && contains (marker (get_hash text)) (log_content w)
    then (Ok false, after_check w)
    else (Ok true, after_append E text category w).
Proof.
  intros Happ.
  destruct (append_to_stream E text category w) as [r w'] eqn:Hrun.
  apply append_to_stream_outcome in Hrun.
  destruct Hrun as [Hcap | Hcap _ | e w' Hcap Hno _ _]; rewrite ?Hcap; congruence.
Qed.

(** A call that finds the marker returns at once, whatever the state of the
    file system. *)
Lemma append_to_stream_captured E text category w :
  log_readable w && contains (marker (get_hash text)) (log_content w) = true ->
  append_to_stream E text category w = (Ok false, after_check w).
Proof.
  intros Hcap.
  destruct (append_to_stream E text category w) as [r w'] eqn:Hrun.
  apply append_to_stream_outcome in Hrun.
  destruct Hrun as [_ | Hno _ | e w' Hno _ _ _]; congruence.
Qed.

Lemma log_content_after_append E text category w :
  log_content (after_append E text category w)
  = log_content w +:+
    entry_block (strftime_now E (ticks w) "%Y-%m-%d %H:%M:%S UTC") category text.
Proof.
  unfold log_content at 1, after_append. cbn [files]. now rewrite lookup_insert_eq.
Qed.

Lemma log_readable_after_append E text category w :
  log_readable (after_append E text category w) = log_readable w.
Proof.
  unfold log_readable at 1, after_append. cbn [files]. now rewrite lookup_insert_eq.
Qed.




(** The block of an entry carries the entry's marker. *)
Lemma entry_block_has_marker timestamp category text :
  contains (marker (get_hash text)) (entry_block timestamp category text) = true.
Proof.
  apply contains_iff. unfold entry_block.
  exists (nl +:+ "---" +:+ nl +:+ "[" +:+ timestamp +:+ "] [" +:+ category +:+ "]" +:+ nl +:+
          text +:+ nl), nl.
  now rewrite !append_assoc.
Qed.

End StreamLog.

(** Three ways a call can go. *)
Lemma append_new E text category w :
  log_appendable w = true ->
  PyStr.contains (marker (get_hash text)) (log_content w) = false ->
  append_to_stream E text category w = (Ok true, after_append E text category w).
Proof. intros Ha H. rewrite append_to_stream_eq, H by exact Ha. now rewrite andb_false_r. Qed.

Lemma append_unreadable E text category w :
  log_appendable w = true ->
  log_readable w = false ->
  append_to_stream E text category w = (Ok true, after_append E text category w).
Proof. intros Ha H. now rewrite append_to_stream_eq, H by exact Ha. Qed.


(** In an empty file system, and in one that holds the log alone, the log
    can be appended to. *)
Lemma log_appendable_empty_world : log_appendable empty_world = true.
Proof. vm_compute. reflexivity. Qed.

Lemma log_appendable_world_with_log f : log_appendable (world_with_log f) = true.
Proof.
  unfold log_appendable, world_with_log, can_make. cbn [files dirs readonly].
  rewrite lookup_singleton_eq, (bool_decide_eq_true_2 (is_Some (Some f))) by eauto.
  vm_compute. reflexivity.
Qed.

Lemma log_content_empty_world : log_content empty_world = "".
Proof. unfold log_content, empty_world. cbn [files]. now rewrite lookup_empty. Qed.

Lemma log_readable_empty_world : log_readable empty_world = true.
Proof. unfold log_readable, empty_world. cbn [files]. now rewrite lookup_empty. Qed.


Lemma log_readable_world_with_log f : log_readable (world_with_log f) = readable f.
Proof. unfold log_readable, world_with_log. cbn [files]. now rewrite lookup_singleton_eq. Qed.





(** C2.  After [append_to_stream text category] returned [True] the log ends
    with the block of the entry, which carries the marker of [get_hash text];
    so the log's text holds that marker, and [already_captured (get_hash
    text)] returns [True] on it whenever the log can be read back. *)
Theorem C2_appended_entry_is_captured E text category w w' :
  append_to_stream E text category w = (Ok true, w') ->
  (exists timestamp,
     log_content w' = log_content w +:+ entry_block timestamp category text)
  /\ PyStr.contains (marker (get_hash text)) (log_content w') = true
  /\ (log_readable w' = true ->
      exists w'', already_captured (get_hash text) w' = (Ok true, w'')).
Proof.
  intros H. apply append_to_stream_outcome in H.
  inversion H as [ | Hnew Ha Hr Hw | ]. subst w'. clear H Hr Ha.
  assert (Hc : PyStr.contains (marker (get_hash text))
                 (log_content (after_append E text category w)) = true).
  { rewrite log_content_after_append.
    apply PyStrFacts.contains_app_r, entry_block_has_marker. }
  split; [|split].
  - eexists. apply log_content_after_append.
  - exact Hc.
  - intros Hr. eexists. rewrite already_captured_eq, Hr, Hc. reflexivity.
Qed.

Lemma C2_first_capture_witness :
  exists w', already_captured (get_hash scenario_text)
               (after_append offline scenario_text "decision" empty_world) = (Ok true, w').
Proof.
  apply (C2_appended_entry_is_captured offline scenario_text "decision" empty_world).
  - apply append_new; [apply log_appendable_empty_world|].
    rewrite log_content_empty_world.
    apply PyStrFacts.contains_nil, marker_nonempty.
  - rewrite log_readable_after_append. apply log_readable_empty_world.
Defined.

(** C2, as first stated, fails on a log that can be appended to but not
    read: the append returns [True], and [already_captured] on the digest
    just written returns [False]. *)
Lemma C2_unreadable_log_counterexample :
  exists w1 w2,
    append_to_stream offline scenario_text "decision" (world_with_log (File false ""))
    = (Ok true, w1)
    /\ already_captured (get_hash scenario_text) w1 = (Ok false, w2).
Proof.
  exists (after_append offline scenario_text "decision" (world_with_log (File false ""))).
  eexists. split.
  - apply append_unreadable;
      [apply log_appendable_world_with_log | apply log_readable_world_with_log].
  - rewrite already_captured_eq, log_readable_after_append, log_readable_world_with_log.
    reflexivity.
Qed.









(** C8.  The scenario text has 63 characters and contains "decided"; it is
    important, its category is [decision], its digest is computed, and
    [append_to_stream], called on a log that does not hold the digest's
    marker and can be appended to, appends the entry and returns [True]. *)
Theorem C8_scenario :
  String.length scenario_text = 63
  /\ PyStr.contains "decided" scenario_text = true
  /\ is_important scenario_text = true
  /\ get_category scenario_text = "decision"
  /\ get_hash scenario_text = "871abeae53cc36fa"
  /\ (forall E w,
        PyStr.contains (marker (get_hash scenario_text)) (log_content w) = false ->
        log_appendable w = true ->
        exists w',
          append_to_stream E scenario_text (get_category scenario_text) w = (Ok true, w')
          /\ log_content w'
             = log_content w +:+
               entry_block (strftime_now E (ticks w) "%Y-%m-%d %H:%M:%S UTC")
                 "decision" scenario_text).
Proof.
  assert (Hcat : get_category scenario_text = "decision") by (vm_compute; reflexivity).
  repeat split; try (vm_compute; reflexivity).
  intros E w Hnew Ha. rewrite Hcat.
  exists (after_append E scenario_text "decision" w). split.
  - now apply append_new.
  - apply log_content_after_append.
Qed.

Lemma C8_first_run_witness :
  exists w',
    append_to_stream offline scenario_text (get_category scenario_text) empty_world
    = (Ok true, w')
    /\ log_content w'
       = log_content empty_world +:+
         entry_block (strftime_now offline (ticks empty_world) "%Y-%m-%d %H:%M:%S UTC")
           "decision" scenario_text.
Proof.
  apply (proj2 (proj2 (proj2 (proj2 (proj2 C8_scenario)))) offline empty_world).
  - rewrite log_content_empty_world. apply PyStrFacts.contains_nil, marker_nonempty.
  - apply log_appendable_empty_world.
Defined.

(** C8, as first stated, gives the scenario text 68 characters; it has 63. *)
Lemma C8_length_counterexample : String.length scenario_text <> 68.
Proof. vm_compute. discriminate. Qed.

(** ** Reasoning about computations: weakest preconditions *)

Section WP.
Context {A B : Type}.

Lemma wp_ret (a : A) Q w : Q (Ok a) w -> wp (ret a) Q w.
Proof. exact id. Qed.

Lemma wp_lift (r : result A) Q w : Q r w -> wp (lift r) Q w.
Proof. exact id. Qed.

Lemma wp_bind (m : M A) (k : A -> M B) Q w :
  wp m (then_wp k Q) w -> wp (bind m k) Q w.
Proof.
  unfold wp, then_wp, bind. destruct (m w) as [[a|e] w1]; simpl; trivial.
Qed.

Lemma wp_try (m : M A) handler Q w :
  wp m (catch_wp handler Q) w -> wp (try_except m handler) Q w.
Proof.
  unfold wp, catch_wp, try_except. destruct (m w) as [[a|e] w1]; simpl; trivial.
Qed.

Lemma wp_mono (m : M A) (Q Q' : result A -> world -> Prop) w :
  (forall r w', Q r w' -> Q' r w') -> wp m Q w -> wp m Q' w.
Proof. unfold wp. auto. Qed.

End WP.

Lemma wp_log E msg Q w : Q (Ok tt) (logged E msg w) -> wp (log E msg) Q w.
Proof. exact id. Qed.

Lemma wp_run_openclaw E args Q w :
  match Py.strs args with
  | Ok ss => Q (Ok (outcome (spawn E ("openclaw" :: ss)))) (ran ("openclaw" :: ss) w)
  | Raise e => Q (Ok (false, "", exn_str e)) w
  end ->
  wp (run_openclaw E args) Q w.
Proof.
  unfold wp, run_openclaw, try_except, bind, subprocess_run, ret.
  cbn [Py.strs rbind].
  destruct (Py.strs args) as [ss|e]; cbn [rbind]; [|exact id].
  destruct (spawn E ("openclaw" :: ss)) as [rc out err|e]; exact id.
Qed.

(** ** [get_recent_messages] *)

Ltac gave_up cmds :=
  exists (JArr []), cmds;
  cbn [logged ran files dirs trace spawned stderr];
  rewrite <- ?app_assoc;
  repeat split; try reflexivity; eauto;
  left; split; [reflexivity | eexists; reflexivity].

Ltac log_and_give_up cmds :=
  apply wp_bind, wp_log; cbn [then_wp]; apply wp_ret; gave_up cmds.

Lemma fetch_spec E w : wp (get_recent_messages E) (fetch_post E w) w.
Proof.
  unfold get_recent_messages.
  apply wp_bind, wp_run_openclaw. cbn [Py.strs rbind then_wp].
  destruct (spawn E _) as [rc out err|e] eqn:Hlist; cbn [outcome negb];
    [|log_and_give_up [list_cmd]].
  destruct (rc =? 0)%Z eqn:Hrc; cbn [negb]; [|log_and_give_up [list_cmd]].
  apply wp_try, wp_bind, wp_lift.
  destruct (json_loads E out) as [data|e] eqn:Hj; cbn [then_wp catch_wp];
    [|log_and_give_up [list_cmd]].
  assert (Hlist_ok : step_fails E list_cmd = false)
    by (unfold step_fails, list_cmd; now rewrite Hlist, Hrc, Hj).
  apply wp_bind, wp_lift.
  destruct (Py.get data "sessions" (JArr [])) as [sessions|e]; cbn [then_wp catch_wp];
    [|log_and_give_up [list_cmd]].
  apply wp_bind, wp_lift.
  destruct (Py.iter sessions) as [items|e]; cbn [then_wp catch_wp];
    [|log_and_give_up [list_cmd]].
  apply wp_bind, wp_lift.
  destruct (find_main items) as [[s|]|e]; cbn [then_wp catch_wp];
    [|log_and_give_up [list_cmd] | log_and_give_up [list_cmd]].
  destruct (negb (Py.truthy s)); [log_and_give_up [list_cmd]|].
  apply wp_bind, wp_lift.
  destruct (Py.get s "key" JNull) as [key|e]; cbn [then_wp catch_wp];
    [|log_and_give_up [list_cmd]].
  apply wp_bind, wp_run_openclaw.
  destruct key as [| b | q | k | l | kv]; cbn [Py.strs rbind then_wp negb];
    try log_and_give_up [list_cmd].
  destruct (spawn E ["openclaw"; "sessions_history"; k; "--limit"; "10"; "--format"; "json"])
    as [rc2 out2 err2|e] eqn:Hhist; cbn [outcome negb];
    [|log_and_give_up [list_cmd; history_cmd k]].
  destruct (rc2 =? 0)%Z eqn:Hrc2; cbn [negb];
    [|log_and_give_up [list_cmd; history_cmd k]].
  apply wp_bind, wp_lift.
  destruct (json_loads E out2) as [data2|e] eqn:Hj2; cbn [then_wp catch_wp];
    [|log_and_give_up [list_cmd; history_cmd k]].
  apply wp_lift.
  destruct (Py.get data2 "messages" (JArr [])) as [v|e]; cbn [catch_wp];
    [|log_and_give_up [list_cmd; history_cmd k]].
  exists v, [list_cmd; history_cmd k].
  cbn [ran files dirs trace spawned stderr]. rewrite <- ?app_assoc.
  repeat split; try reflexivity; eauto.
  right. split; [|reflexivity].
  repeat constructor; [exact Hlist_ok|].
  unfold step_fails, history_cmd. now rewrite Hhist, Hrc2, Hj2.
Qed.

(** C6.  Whatever the outside answers, [get_recent_messages] returns a value
    and raises nothing; it runs the session-list command and at most one
    history command, and touches no file.  When a step it ran failed (the
    call raised, as on a timeout or a missing executable, or the exit code
    was not 0, or the output was not JSON) it returns the empty list and
    has printed one diagnostic line. *)
Theorem C6_fetch_fails_soft E w :
  exists v w' cmds,
    get_recent_messages E w = (Ok v, w')
    /\ files w' = files w
    /\ spawned w' = spawned w ++ cmds
    /\ (cmds = [list_cmd] \/ exists k, cmds = [list_cmd; history_cmd k])
    /\ ((exists cmd, In cmd cmds /\ step_fails E cmd = true) ->
        v = JArr [] /\ exists line, stderr w' = stderr w ++ [line]).
Proof.
  pose proof (fetch_spec E w) as H. unfold wp, fetch_post in H.
  destruct (get_recent_messages E w) as [r w']. cbn [fst snd] in H.
  destruct H as (v & cmds & -> & Hf & _ & _ & Hs & Hcmds & Hsoft & _).
  exists v, w', cmds. repeat split; trivial.
  - destruct Hsoft as [[Hv _] | [Hall _]]; [exact Hv|].
    destruct H as (cmd & Hin & Hfail). rewrite Forall_forall in Hall.
    apply list_elem_of_In in Hin. rewrite (Hall cmd Hin) in Hfail. discriminate.
  - destruct Hsoft as [[_ Hline] | [Hall _]]; [exact Hline|].
    destruct H as (cmd & Hin & Hfail). rewrite Forall_forall in Hall.
    apply list_elem_of_In in Hin. rewrite (Hall cmd Hin) in Hfail. discriminate.
Qed.

Lemma C6_offline_witness :
  exists v w',
    get_recent_messages offline empty_world = (Ok v, w')
    /\ v = JArr [] /\ exists line, stderr w' = stderr empty_world ++ [line].
Proof.
  destruct (C6_fetch_fails_soft offline empty_world)
    as (v & w' & cmds & Hrun & _ & _ & Hcmds & Hsoft).
  exists v, w'. split; [exact Hrun|]. apply Hsoft.
  exists list_cmd. split; [|reflexivity].
  destruct Hcmds as [-> | [k ->]]; now left.
Defined.

(** ** The state file *)

Section StateFile.

Lemma STREAM_not_STATE : STREAM_FILE <> STATE_FILE.
Proof. intros H. vm_compute in H. discriminate. Qed.

Lemma stream_dir_not_STATE : Path.dirname STREAM_FILE <> STATE_FILE.
Proof. intros H. vm_compute in H. discriminate. Qed.

Lemma STATE_not_made : STATE_FILE ∉ Path.ancestors (Path.dirname STREAM_FILE).
Proof.
  intros H. apply list_elem_of_In in H. vm_compute in H.
  repeat (destruct H as [H|H]; [discriminate|]). exact H.
Qed.

Lemma untouched_refl p w : untouched p w w.
Proof.
  repeat split; trivial. exists []. split; [now rewrite app_nil_r | constructor].
Qed.

Lemma untouched_trans p w1 w2 w3 :
  untouched p w1 w2 -> untouched p w2 w3 -> untouched p w1 w3.
Proof.
  intros (Hf1 & Hd1 & evs1 & Ht1 & Hall1) (Hf2 & Hd2 & evs2 & Ht2 & Hall2).
  split; [congruence|]. split; [tauto|].
  exists (evs1 ++ evs2). split.
  - now rewrite Ht2, Ht1, app_assoc.
  - now apply Forall_app.
Qed.

(** A step that leaves files, directories and the trace alone. *)
Lemma untouched_same p w w' :
  files w' = files w -> dirs w' = dirs w -> trace w' = trace w -> untouched p w w'.
Proof.
  intros Hf Hd Ht. unfold untouched. rewrite Hf, Hd, Ht.
  apply (untouched_refl p w).
Qed.

Lemma untouched_after_check w : untouched STATE_FILE w (after_check w).
Proof.
  unfold untouched. rewrite files_after_check, dirs_after_check.
  split; [reflexivity|]. split; [reflexivity|].
  unfold after_check. pose proof STREAM_not_STATE as Hne.
  destruct (_ || _); cbn [record trace].
  - exists [EvExists STREAM_FILE; EvRead STREAM_FILE].
    split; [now rewrite <- app_assoc | repeat constructor; exact Hne].
  - exists [EvExists STREAM_FILE]. split; [reflexivity | repeat constructor; exact Hne].
Qed.

Lemma untouched_after_append E text category w :
  untouched STATE_FILE w (after_append E text category w).
Proof.
  pose proof STREAM_not_STATE as Hne. pose proof stream_dir_not_STATE as Hnd.
  destruct (untouched_after_check w) as (_ & _ & evs & Ht & Hall).
  unfold untouched, after_append. cbn [files dirs trace].
  split; [now rewrite lookup_insert_ne|]. split.
  - rewrite elem_of_union, elem_of_list_to_set. split; [|now left].
    intros [H|H]; [exact H | destruct (STATE_not_made H)].
  - exists (evs ++ [EvMakedirs (Path.dirname STREAM_FILE); EvAppend STREAM_FILE]).
    split; [now rewrite Ht, app_assoc|].
    apply Forall_app. split; [exact Hall | repeat constructor; assumption].
Qed.

Lemma untouched_refusal w w' : refusal w w' -> untouched STATE_FILE w w'.
Proof.
  intros (Hf & _ & _ & _ & Hlo & Hhi & evs & Ht & Hall).
  split; [now rewrite Hf|]. split.
  - split; [|apply Hlo]. intros H. apply Hhi, elem_of_union in H as [H|H]; [exact H|].
    apply elem_of_list_to_set in H. destruct (STATE_not_made H).
  - exists evs. split; [exact Ht|]. eapply Forall_impl; [exact Hall|].
    intros ev [-> | ->]; [apply STREAM_not_STATE | apply stream_dir_not_STATE].
Qed.

(** What a call of [append_to_stream] leaves untouched, however it ends. *)
Lemma append_to_stream_quiet E text category w :
  untouched STATE_FILE w (snd (append_to_stream E text category w))
  /\ spawned (snd (append_to_stream E text category w)) = spawned w.
Proof.
  destruct (append_to_stream E text category w) as [r w'] eqn:Hrun. cbn [snd].
  apply append_to_stream_outcome in Hrun.
  destruct Hrun as [_ | _ _ | e w' _ _ _ Href].
  - split; [apply untouched_after_check | apply spawned_after_check].
  - split; [apply untouched_after_append | reflexivity].
  - split; [now apply untouched_refusal | apply Href].
Qed.

Lemma quiet_step w0 w w' :
  quiet w0 w -> untouched STATE_FILE w w' -> spawned w' = spawned w -> quiet w0 w'.
Proof.
  intros [Hu Hs] Hu' Hs'. split; [now apply (untouched_trans _ _ w) | congruence].
Qed.

Lemma frames_ret {A} (a : A) : frames (ret a).
Proof. intros w0 w H. exact H. Qed.

Lemma frames_lift {A} (r : result A) : frames (lift r).
Proof. intros w0 w H. exact H. Qed.

Lemma frames_bind {A B} (m : M A) (k : A -> M B) :
  frames m -> (forall a, frames (k a)) -> frames (bind m k).
Proof.
  intros Hm Hk w0 w H. apply wp_bind. specialize (Hm w0 w H). unfold wp in *.
  destruct (m w) as [[a|e] w1]; cbn [fst snd then_wp] in *; [|exact Hm].
  now apply Hk.
Qed.

Lemma frames_log E msg : frames (log E msg).
Proof.
  intros w0 w H. apply wp_log. apply (quiet_step w0 w); trivial.
  now apply untouched_same.
Qed.

Lemma frames_already_captured hash_val : frames (already_captured hash_val).
Proof.
  intros w0 w H. unfold wp. rewrite already_captured_eq. cbn [snd].
  apply (quiet_step w0 w); trivial.
  - apply untouched_after_check.
  - apply spawned_after_check.
Qed.

Lemma frames_append_to_stream E text category :
  frames (append_to_stream E text category).
Proof.
  intros w0 w H. unfold wp.
  destruct (append_to_stream_quiet E text category w) as [Hu Hs].
  now apply (quiet_step w0 w).
Qed.

Lemma frames_capture_loop E msgs : forall captured, frames (capture_loop E msgs captured).
Proof.
  induction msgs as [|msg rest IH]; intros captured; cbn [capture_loop].
  - apply frames_ret.
  - apply frames_bind; [apply frames_lift|]. intros text.
    destruct (String.eqb text ""); [apply IH|].
    destruct (is_important text); [|apply IH].
    apply frames_bind; [apply frames_append_to_stream|]. intros [|]; [|apply IH].
    apply frames_bind; [apply frames_log | intros _; apply IH].
Qed.

Lemma quiet_refl w : quiet w w.
Proof. split; [apply untouched_refl | reflexivity]. Qed.

(** What [main] does once the messages are fetched. *)
Lemma frames_after_fetch E (messages : json) :
  frames (if negb (Py.truthy messages) then log E "No messages found"
          else
            let* n := lift (Py.len messages) in
            log E ("Found " +:+ PyStr.of_nat n +:+ " messages to analyze");;
            let* items := lift (Py.iter messages) in
            let* captured := capture_loop E items 0 in
            log E ("Complete: captured " +:+ PyStr.of_nat captured +:+ " entries")).
Proof.
  destruct (negb (Py.truthy messages)); [apply frames_log|].
  apply frames_bind; [apply frames_lift | intros n].
  apply frames_bind; [apply frames_log | intros _].
  apply frames_bind; [apply frames_lift | intros items].
  apply frames_bind; [apply frames_capture_loop | intros captured].
  apply frames_log.
Qed.

End StateFile.

Section Blind.

Lemma blind_ret {A} (a : A) : blind (ret a).
Proof. intros o w. reflexivity. Qed.

Lemma blind_lift {A} (r : result A) : blind (lift r).
Proof. intros o w. reflexivity. Qed.

Lemma blind_bind {A B} (m : M A) (k : A -> M B) :
  blind m -> (forall a, blind (k a)) -> blind (bind m k).
Proof.
  intros Hm Hk o w. unfold bind. rewrite Hm.
  destruct (m w) as [[a|e] w1]; cbn [fst snd]; [apply Hk | reflexivity].
Qed.

Lemma blind_try {A} (m : M A) handler :
  blind m -> (forall e, blind (handler e)) -> blind (try_except m handler).
Proof.
  intros Hm Hh o w. unfold try_except. rewrite Hm.
  destruct (m w) as [[a|e] w1]; cbn [fst snd]; [reflexivity | apply Hh].
Qed.

Lemma blind_log E msg : blind (log E msg).
Proof. intros o w. reflexivity. Qed.

Lemma blind_now E fmt : blind (now E fmt).
Proof. intros o w. reflexivity. Qed.

Lemma blind_subprocess_run E args : blind (subprocess_run E args).
Proof.
  intros o w. unfold subprocess_run. now destruct (Py.strs args).
Qed.

Lemma blind_path_exists p : p <> STATE_FILE -> blind (path_exists p).
Proof.
  intros Hp o w. unfold path_exists, with_state_file, record. cbn [files dirs fst snd].
  now rewrite lookup_partial_alter_ne.
Qed.

Lemma blind_read_file p : p <> STATE_FILE -> blind (read_file p).
Proof.
  intros Hp o w. unfold read_file, with_state_file, record. cbn [files dirs fst snd].
  now rewrite lookup_partial_alter_ne.
Qed.

Lemma blind_mkdir_chain ds : STATE_FILE ∉ ds -> blind (mkdir_chain ds).
Proof.
  induction ds as [|d rest IH]; intros Hds o w; [reflexivity|].
  apply not_elem_of_cons in Hds as [Hd Hrest]. cbn [mkdir_chain].
  assert (Hl : files (with_state_file o w) !! d = files w !! d).
  { unfold with_state_file. cbn [files]. now rewrite lookup_partial_alter_ne. }
  rewrite Hl.
  change (dirs (with_state_file o w)) with (dirs w).
  change (readonly (with_state_file o w)) with (readonly w).
  destruct (bool_decide (d ∈ dirs w)); [now apply IH|].
  destruct (bool_decide (is_Some (files w !! d))); [reflexivity|].
  destruct (bool_decide (Path.dirname d ∈ readonly w)); [reflexivity|].
  pose proof (IH Hrest o (World (files w) (dirs w ∪ {[d]}) (readonly w)
                                (stderr w) (trace w) (spawned w) (ticks w))) as H.
  unfold with_state_file in *.
  cbn [files dirs readonly stderr trace spawned ticks] in *. exact H.
Qed.

Lemma blind_makedirs p : STATE_FILE ∉ Path.ancestors p -> blind (makedirs p).
Proof.
  intros Hp o w. unfold makedirs.
  exact (blind_mkdir_chain _ Hp o (record (EvMakedirs p) w)).
Qed.

Lemma blind_append_file p writes :
  p <> STATE_FILE -> Path.dirname p <> STATE_FILE -> blind (append_file p writes).
Proof.
  intros Hp Hd o w. unfold append_file.
  assert (Hl : forall q, q <> STATE_FILE -> files (with_state_file o w) !! q = files w !! q).
  { intros q Hq. unfold with_state_file. cbn [files]. now rewrite lookup_partial_alter_ne. }
  rewrite !Hl by assumption.
  change (dirs (with_state_file o w)) with (dirs w).
  change (readonly (with_state_file o w)) with (readonly w).
  destruct (bool_decide (p ∈ dirs w)); [reflexivity|].
  destruct (negb (bool_decide (Path.dirname p ∈ dirs w))); [reflexivity|].
  destruct (bool_decide (p ∈ readonly w)); [reflexivity|].
  destruct (files w !! p) as [f|]; cbn [fst snd].
  - unfold with_state_file, record. cbn [files dirs readonly stderr trace spawned ticks].
    now rewrite partial_alter_insert_ne by done.
  - destruct (bool_decide (Path.dirname p ∈ readonly w)); [reflexivity|].
    cbn [fst snd]. unfold with_state_file, record.
    cbn [files dirs readonly stderr trace spawned ticks].
    now rewrite partial_alter_insert_ne by done.
Qed.

End Blind.

Ltac blind_step :=
  first
    [ apply blind_ret | apply blind_lift | apply blind_log | apply blind_now
    | apply blind_subprocess_run | apply blind_makedirs; apply STATE_not_made
    | apply blind_path_exists; apply STREAM_not_STATE
    | apply blind_read_file; apply STREAM_not_STATE
    | apply blind_append_file; [apply STREAM_not_STATE | apply stream_dir_not_STATE]
    | apply blind_try; [|intros ?]
    | apply blind_bind; [|intros ?]
    | match goal with
      | |- blind (match ?x with _ => _ end) => destruct x
      | |- blind (if ?b then _ else _) => destruct b
      end ].

Lemma blind_run_openclaw E args : blind (run_openclaw E args).
Proof. unfold run_openclaw. repeat blind_step. Qed.

Lemma blind_get_recent_messages E : blind (get_recent_messages E).
Proof.
  unfold get_recent_messages.
  apply blind_bind; [apply blind_run_openclaw | intros [[success out] err]].
  destruct (negb success); [repeat blind_step|].
  apply blind_try; [|intros e; repeat blind_step].
  do 4 (apply blind_bind; [apply blind_lift | intros ?]).
  destruct a2 as [s|]; [|repeat blind_step].
  destruct (negb (Py.truthy s)); [repeat blind_step|].
  apply blind_bind; [apply blind_lift | intros key].
  apply blind_bind; [apply blind_run_openclaw | intros [[success2 out2] err2]].
  destruct (negb success2); repeat blind_step.
Qed.

Lemma blind_already_captured hash_val : blind (already_captured hash_val).
Proof. unfold already_captured. repeat blind_step. Qed.

Lemma blind_append_to_stream E text category : blind (append_to_stream E text category).
Proof.
  unfold append_to_stream.
  apply blind_bind; [apply blind_already_captured | intros captured].
  repeat blind_step.
Qed.

Lemma blind_capture_loop E msgs : forall captured, blind (capture_loop E msgs captured).
Proof.
  induction msgs as [|msg rest IH]; intros captured; cbn [capture_loop].
  - apply blind_ret.
  - apply blind_bind; [apply blind_lift | intros text].
    destruct (String.eqb text ""); [apply IH|].
    destruct (is_important text); [|apply IH].
    apply blind_bind; [apply blind_append_to_stream | intros [|]]; [|apply IH].
    apply blind_bind; [apply blind_log | intros _; apply IH].
Qed.

Lemma blind_main E : blind (main E).
Proof.
  unfold main.
  apply blind_bind; [apply blind_log | intros _].
  apply blind_bind; [apply blind_get_recent_messages | intros messages].
  destruct (negb (Py.truthy messages)); [apply blind_log|].
  apply blind_bind; [apply blind_lift | intros n].
  apply blind_bind; [apply blind_log | intros _].
  apply blind_bind; [apply blind_lift | intros items].
  apply blind_bind; [apply blind_capture_loop | intros captured].
  apply blind_log.
Qed.

(** C9.  No run of [main] touches the state file: the file (and any
    directory) at its path is afterwards as it was before, and no
    file-system call [main] or a helper makes names that path.  The same
    holds of [get_recent_messages], [already_captured] and
    [append_to_stream] taken alone.  Every run starts over from the
    session-list command, and runs the same whatever the state file holds:
    with the state file replaced by any other, or removed, [main] ends in
    the same result and the same world but for that file. *)
Theorem C9_state_file_untouched E w :
  (exists r w' cmds,
     main E w = (r, w')
     /\ untouched STATE_FILE w w'
     /\ spawned w' = spawned w ++ list_cmd :: cmds)
  /\ untouched STATE_FILE w (snd (get_recent_messages E w))
  /\ (forall hash_val, untouched STATE_FILE w (snd (already_captured hash_val w)))
  /\ (forall text category,
        untouched STATE_FILE w (snd (append_to_stream E text category w)))
  /\ (forall o,
        main E (with_state_file o w)
        = (fst (main E w), with_state_file o (snd (main E w)))).
Proof.
  assert (Hfetch : forall w1,
            wp (get_recent_messages E)
               (fun _ w' => untouched STATE_FILE w1 w' /\
                            exists cmds, spawned w' = spawned w1 ++ list_cmd :: cmds) w1).
  { intros w1. apply (wp_mono _ (fetch_post E w1)); [|apply fetch_spec].
    intros r w' (v & cmds & _ & Hf & Hd & Ht & Hs & Hcmds & _). split.
    - now apply untouched_same.
    - rewrite Hs. destruct Hcmds as [-> | [k ->]]; eauto. }
  split; [|split; [|split; [|split]]].
  - assert (H : wp (main E)
                  (fun _ w' => untouched STATE_FILE w w' /\
                               exists cmds, spawned w' = spawned w ++ list_cmd :: cmds) w).
    { unfold main. apply wp_bind, wp_log. cbn [then_wp].
      set (w0 := logged E "MemoryCapture Franklin starting..." w).
      assert (H0 : untouched STATE_FILE w w0) by now apply untouched_same.
      apply wp_bind. eapply wp_mono; [|apply (Hfetch w0)].
      intros r w1 [Hu1 [cmds Hs1]].
      assert (H1 : untouched STATE_FILE w w1) by now apply (untouched_trans _ _ w0).
      destruct r as [messages|e]; cbn [then_wp]; [|eauto].
      eapply wp_mono; [|apply (frames_after_fetch E messages w1 w1 (quiet_refl w1))].
      intros _ w' [Hu' Hs']. split; [now apply (untouched_trans _ _ w1)|].
      exists cmds. now rewrite Hs', Hs1. }
    unfold wp in H. destruct (main E w) as [r w']. cbn [snd] in H.
    destruct H as [Hu [cmds Hs]]. now exists r, w', cmds.
  - apply (Hfetch w).
  - intros hash_val. rewrite already_captured_eq. apply untouched_after_check.
  - intros text category. apply append_to_stream_quiet.
  - intros o. apply blind_main.
Qed.

(** ** A whole run *)

(** With the [online] outside and no log yet, [main] fetches three messages,
    skips the short one, captures the scenario text once and finds it
    captured the second time. *)
Example main_online_run :
  fst (main online empty_world) = Ok tt
  /\ log_content (snd (main online empty_world))
     = entry_block "2026-01-01 12:00:00 UTC" "decision" scenario_text
  /\ stderr (snd (main online empty_world))
     = [ "[12:00:00] MemoryCapture Franklin starting...";
         "[12:00:00] Found 3 messages to analyze";
         "[12:00:00] Captured: decision";
         "[12:00:00] Complete: captured 1 entries" ]
  /\ spawned (snd (main online empty_world)) = [list_cmd; history_cmd "agent:main:main"]
  /\ trace (snd (main online empty_world))
     = [ EvExists STREAM_FILE; EvMakedirs (Path.dirname STREAM_FILE); EvAppend STREAM_FILE;
         EvExists STREAM_FILE; EvRead STREAM_FILE ].
Proof. repeat split; vm_compute; reflexivity. Qed.

(* ===================================================================== *)
(** * Part III: further properties of the code *)
(* ===================================================================== *)

(** ** The task text against the source *)

(** The digest of the task text for two file names, as the f-string of the
    source gives it. *)
Example task_digest :
  String.length (task "/tmp/chunk.json" "/tmp/queue.jsonl") = 723
  /\ MD5.hexdigest (PyStr.encode (task "/tmp/chunk.json" "/tmp/queue.jsonl"))
     = "5c2f60ca79dd2871f1f7e2fe9a7bc492".
Proof. split; vm_compute; reflexivity. Qed.

(** ** The digest is sixteen hexadecimal digits *)

Section DigestShape.

Lemma le_bytes_length n x : length (MD5.le_bytes n x) = n.
Proof. unfold MD5.le_bytes. now rewrite length_map, length_seq. Qed.

Lemma le_bytes_range n x : Forall (fun b => (0 <= b < 256)%Z) (MD5.le_bytes n x).
Proof.
  unfold MD5.le_bytes. apply Forall_forall. intros b Hb.
  apply list_elem_of_In, in_map_iff in Hb as (i & <- & _).
  change 255%Z with (Z.ones 8). rewrite Z.land_ones by lia.
  apply Z.mod_pos_bound. reflexivity.
Qed.

Lemma digest_length msg : length (MD5.digest msg) = 16.
Proof. unfold MD5.digest. cbv zeta. now rewrite !length_app, !le_bytes_length. Qed.

Lemma digest_range msg : Forall (fun b => (0 <= b < 256)%Z) (MD5.digest msg).
Proof.
  unfold MD5.digest. cbv zeta. repeat (apply Forall_app; split); apply le_bytes_range.
Qed.

Lemma hex_digit_is_hex x : (0 <= x < 16)%Z -> is_hex (MD5.hex_digit x) = true.
Proof.
  intros H.
  assert (Hx : (x = 0 \/ x = 1 \/ x = 2 \/ x = 3 \/ x = 4 \/ x = 5 \/ x = 6 \/ x = 7 \/
                x = 8 \/ x = 9 \/ x = 10 \/ x = 11 \/ x = 12 \/ x = 13 \/ x = 14 \/ x = 15)%Z)
    by lia.
  repeat (destruct Hx as [-> | Hx]; [reflexivity|]). now subst.
Qed.

Lemma hex_length bytes : String.length (MD5.hex bytes) = 2 * length bytes.
Proof. induction bytes as [|b rest IH]; simpl; [reflexivity | rewrite IH; lia]. Qed.

Lemma hex_is_hex bytes :
  Forall (fun b => (0 <= b < 256)%Z) bytes -> str_forall is_hex (MD5.hex bytes) = true.
Proof.
  induction 1 as [|b rest Hb _ IH]; [reflexivity|].
  cbn [MD5.hex str_forall]. rewrite IH, !hex_digit_is_hex; [reflexivity | |].
  - change 15%Z with (Z.ones 4). rewrite Z.land_ones by lia.
    apply Z.mod_pos_bound. reflexivity.
  - rewrite Z.shiftr_div_pow2 by lia. change (2 ^ 4)%Z with 16%Z.
    split; [apply Z.div_pos; lia | apply Z.div_lt_upper_bound; lia].
Qed.

Lemma substring_0_length n : forall s,
  n <= String.length s -> String.length (String.substring 0 n s) = n.
Proof.
  induction n as [|n IH]; intros [|c s] H; simpl in *; try reflexivity; try lia.
  rewrite IH; [reflexivity | lia].
Qed.

Lemma substring_0_forall P n : forall s,
  str_forall P s = true -> str_forall P (String.substring 0 n s) = true.
Proof.
  induction n as [|n IH]; intros [|c s] H; simpl in *; try reflexivity.
  apply andb_true_iff in H as [Hc Hs]. now rewrite Hc, IH.
Qed.

End DigestShape.

(** X1.  Whatever bytes are digested, the first sixteen characters of the
    hexadecimal digest are sixteen lower-case hexadecimal digits.
    [get_hash] is that cut of the digest of the bytes [text.encode()]
    gives: so whenever the text can be encoded, as every text of the
    embedding can, its hash has this shape. *)
Theorem X1_get_hash_sixteen_hex :
  (forall bytes : list Z,
     String.length (String.substring 0 16 (MD5.hexdigest bytes)) = 16
     /\ str_forall is_hex (String.substring 0 16 (MD5.hexdigest bytes)) = true)
  /\ (forall text : string,
        get_hash text = String.substring 0 16 (MD5.hexdigest (PyStr.encode text))
        /\ String.length (get_hash text) = 16
        /\ str_forall is_hex (get_hash text) = true).
Proof.
  assert (Hshape : forall bytes : list Z,
            String.length (String.substring 0 16 (MD5.hexdigest bytes)) = 16
            /\ str_forall is_hex (String.substring 0 16 (MD5.hexdigest bytes)) = true).
  { intros bytes. unfold MD5.hexdigest. split.
    - apply substring_0_length. rewrite hex_length, digest_length. lia.
    - apply substring_0_forall, hex_is_hex, digest_range. }
  split; [exact Hshape|].
  intros text. split; [reflexivity|]. apply Hshape.
Qed.

(** ** Case does not matter to the keyword tests *)



(** ** [extract_text_content]: what it does off the expected shapes *)

Section Trimming.
Import PyStr.

Lemma lstrip_blank s : str_forall is_space s = true -> lstrip s = "".
Proof.
  induction s as [|c s IH]; simpl; [reflexivity|].
  intros H. apply andb_true_iff in H as [Hc Hs]. rewrite Hc. now apply IH.
Qed.

Lemma strip_blank_text s : str_forall is_space s = true -> strip s = "".
Proof. intros H. unfold strip. now rewrite (lstrip_blank s H). Qed.

(** What [lstrip] leaves does not start with a blank. *)
Lemma lstrip_head s c r : lstrip s = String c r -> is_space c = false.
Proof.
  induction s as [|d s IH]; simpl; [discriminate|].
  destruct (is_space d) eqn:Hd; [exact IH|].
  intros H. injection H as <- _. exact Hd.
Qed.

(** [rstrip] keeps the head of what it does not empty. *)
Lemma rstrip_head s c r : rstrip s = String c r -> exists r0, s = String c r0.
Proof.
  destruct s as [|d s]; simpl; [discriminate|].
  destruct (rstrip s); [destruct (is_space d)|]; intros H; try discriminate;
    injection H as <- _; eauto.
Qed.

Lemma rstrip_idem s : rstrip (rstrip s) = rstrip s.
Proof.
  induction s as [|c s IH]; simpl; [reflexivity|].
  destruct (rstrip s) as [|d r] eqn:Hr.
  - destruct (is_space c) eqn:Hc; simpl; [reflexivity | now rewrite Hc].
  - cbn [rstrip] in *. fold rstrip in *. simpl. simpl in IH. now rewrite IH.
Qed.

(** What [rstrip] leaves does not end with a blank. *)
Lemma rstrip_last s : forall pre c,
  rstrip s = pre +:+ String c "" -> is_space c = false.
Proof.
  induction s as [|d s IH]; intros pre c; simpl.
  - destruct pre; discriminate.
  - destruct (rstrip s) as [|e r] eqn:Hr.
    + destruct (is_space d) eqn:Hd; [destruct pre; discriminate|].
      destruct pre as [|p pre]; intros H.
      * injection H as <-. exact Hd.
      * rewrite PyStrFacts.append_cons in H. injection H as _ H. destruct pre; discriminate.
    + destruct pre as [|p pre]; intros H.
      * discriminate.
      * rewrite PyStrFacts.append_cons in H. injection H as _ H.
        apply (IH pre c). exact H.
Qed.

Lemma strip_lstrip_fixed s : lstrip (strip s) = strip s.
Proof.
  unfold strip. destruct (rstrip (lstrip s)) as [|c r] eqn:H; [reflexivity|].
  destruct (rstrip_head _ _ _ H) as [r0 Hr0].
  simpl. now rewrite (lstrip_head _ _ _ Hr0).
Qed.

Lemma strip_idem s : strip (strip s) = strip s.
Proof.
  unfold strip at 1. rewrite strip_lstrip_fixed. unfold strip. apply rstrip_idem.
Qed.

End Trimming.

Lemma extract_is_strip msg text :
  extract_text_content msg = Ok text -> exists x, text = PyStr.strip x.
Proof.
  unfold extract_text_content.
  destruct (Py.get msg "content" (JArr [])) as [content|e]; cbn [rbind]; [|discriminate].
  destruct content as [| b | q | s | items | fields];
    try (intros H; injection H as <-; now exists "").
  - intros H. injection H as <-. now exists s.
  - destruct (fold_left collect_text items (Ok [])) as [texts|e]; cbn [rbind]; [|discriminate].
    destruct (Py.join " " texts) as [joined|e]; cbn [rbind]; [|discriminate].
    intros H. injection H as <-. now exists joined.
Qed.

Lemma filter_none (items : list json) :
  Forall (fun item => is_text_block item = false) items ->
  List.filter is_text_block items = [].
Proof.
  induction 1 as [|item rest Hitem _ IH]; simpl; [reflexivity | now rewrite Hitem].
Qed.

(** X3.  Off the expected shapes: a message that is not a dict makes
    [extract_text_content] raise [AttributeError]; a dict with no [content],
    or whose [content] is neither a list nor a string, gives the empty
    string, and so do a [content] string of blanks only and a [content] list
    with no text block. *)
Theorem X3_extract_off_shape :
  (forall msg, Py.is_dict msg = false -> extract_text_content msg = Raise AttributeError)
  /\ (forall fields,
        Py.dict_get fields "content" = None ->
        extract_text_content (JObj fields) = Ok "")
  /\ (forall fields v,
        Py.dict_get fields "content" = Some v ->
        (forall s, v <> JStr s) -> (forall items, v <> JArr items) ->
        extract_text_content (JObj fields) = Ok "")
  /\ (forall fields s,
        Py.dict_get fields "content" = Some (JStr s) ->
        str_forall PyStr.is_space s = true ->
        extract_text_content (JObj fields) = Ok "")
  /\ (forall fields items,
        Py.dict_get fields "content" = Some (JArr items) ->
        Forall (fun item => is_text_block item = false) items ->
        extract_text_content (JObj fields) = Ok "").
Proof.
  repeat split.
  - intros msg H. now destruct msg.
  - intros fields H. unfold extract_text_content. simpl. now rewrite H.
  - intros fields v H Hs Hl. unfold extract_text_content. simpl. rewrite H. simpl.
    destruct v; try reflexivity; [now destruct (Hs s) | now destruct (Hl items)].
  - intros fields s H Hblank. unfold extract_text_content. simpl. rewrite H. simpl.
    now rewrite strip_blank_text.
  - intros fields items H Hnone. unfold extract_text_content. simpl. rewrite H. simpl.
    rewrite collect_text_fold.
    rewrite (filter_none _ Hnone). reflexivity.
Qed.

Lemma X3_off_shape_witness :
  extract_text_content (JStr "hello") = Raise AttributeError
  /\ extract_text_content (JObj [("role", JStr "user")]) = Ok ""
  /\ extract_text_content (JObj [("content", JNull)]) = Ok ""
  /\ extract_text_content (JObj [("content", JStr ("  " +:+ nl))]) = Ok ""
  /\ extract_text_content
       (JObj [("content", JArr [JObj [("type", JStr "image")]; JStr "stray"])]) = Ok "".
Proof.
  destruct X3_extract_off_shape as (H1 & H2 & H3 & H4 & H5).
  split; [|split; [|split; [|split]]].
  - apply H1. reflexivity.
  - apply H2. reflexivity.
  - apply (H3 _ JNull); [reflexivity | discriminate | discriminate].
  - apply (H4 _ ("  " +:+ nl)); reflexivity.
  - apply (H5 _ [JObj [("type", JStr "image")]; JStr "stray"]);
      [reflexivity | repeat constructor].
Defined.

(** X4.  A text [extract_text_content] returns is trimmed: it does not
    begin and does not end with a blank, and trimming it again changes
    nothing. *)
Theorem X4_extracted_text_is_trimmed (msg : json) (text : string) :
  extract_text_content msg = Ok text ->
  PyStr.strip text = text
  /\ (forall c rest, text = String c rest -> PyStr.is_space c = false)
  /\ (forall pre c, text = pre +:+ String c "" -> PyStr.is_space c = false).
Proof.
  intros H. destruct (extract_is_strip msg text H) as [x ->].
  split; [apply strip_idem|]. split.
  - intros c rest Hc. apply (lstrip_head (PyStr.strip x) c rest).
    now rewrite strip_lstrip_fixed.
  - intros pre c Hc. apply (rstrip_last (PyStr.lstrip x) pre c). exact Hc.
Qed.

Lemma X4_padded_content_witness :
  PyStr.strip "fixed it" = "fixed it"
  /\ (forall c rest, "fixed it" = String c rest -> PyStr.is_space c = false)
  /\ (forall pre c, "fixed it" = pre +:+ String c "" -> PyStr.is_space c = false).
Proof.
  apply (X4_extracted_text_is_trimmed
           (JObj [("content", JStr ("  fixed it " +:+ nl))]) "fixed it").
  reflexivity.
Defined.

(** ** The session [get_recent_messages] picks *)

Lemma exact_key_has_main k :
  Py.eq_str (JStr k) "agent:main:main" = true -> PyStr.contains "main" k = true.
Proof.
  simpl. intros H. apply String.eqb_eq in H. subst k. reflexivity.
Qed.

Lemma find_main_skips s rest :
  plain_session s = true -> has_main s = false -> find_main (s :: rest) = find_main rest.
Proof.
  destruct s as [| b | q | t | items | fields]; try discriminate.
  unfold plain_session, has_main. cbn [find_main Py.get rbind].
  destruct (Py.dict_get fields "key") as [[| b | q | k | items | kv]|]; try discriminate.
  - intros _ Hk. cbn [Py.str_in rbind]. rewrite Hk.
    destruct (Py.eq_str (JStr k) "agent:main:main") eqn:He; [|reflexivity].
    apply exact_key_has_main in He. congruence.
  - intros _ _. reflexivity.
Qed.

Lemma find_main_takes s rest : has_main s = true -> find_main (s :: rest) = Ok (Some s).
Proof.
  destruct s as [| b | q | t | items | fields]; try discriminate.
  unfold has_main. cbn [find_main Py.get rbind].
  destruct (Py.dict_get fields "key") as [[| b | q | k | items | kv]|]; try discriminate.
  intros Hk. cbn [Py.str_in rbind]. rewrite Hk.
  now destruct (Py.eq_str (JStr k) "agent:main:main").
Qed.

(** X5.  The session loop takes the first session whose key contains
    "main", whether or not a later one has the exact key
    [agent:main:main], and never looks at the sessions after it; with no
    such session it finds none. *)
Theorem X5_first_session_with_main (before : list json) :
  Forall (fun s => plain_session s = true /\ has_main s = false) before ->
  (forall s after, has_main s = true -> find_main (before ++ s :: after) = Ok (Some s))
  /\ find_main before = Ok None.
Proof.
  induction 1 as [|b before [Hp Hm] _ [IHtake IHnone]].
  - split; [intros s after Hs; now apply find_main_takes | reflexivity].
  - split.
    + intros s after Hs. rewrite <- app_comm_cons, find_main_skips by assumption.
      now apply IHtake.
    + now rewrite find_main_skips.
Qed.

Lemma X5_sub_session_witness :
  find_main [ JObj [("key", JStr "agent:cron:daily")];
              JObj [("key", JStr "agent:main:subagent:7")];
              JObj [("key", JStr "agent:main:main")];
              JNull ]
  = Ok (Some (JObj [("key", JStr "agent:main:subagent:7")])).
Proof.
  apply (proj1 (X5_first_session_with_main [JObj [("key", JStr "agent:cron:daily")]]
                  ltac:(repeat constructor))
           (JObj [("key", JStr "agent:main:subagent:7")])
           [JObj [("key", JStr "agent:main:main")]; JNull]).
  reflexivity.
Defined.

(** ** What the log remembers *)

Lemma log_content_logged E msg w : log_content (logged E msg w) = log_content w.
Proof. reflexivity. Qed.

Lemma log_readable_logged E msg w : log_readable (logged E msg w) = log_readable w.
Proof. reflexivity. Qed.





(** ** What [main] writes, and what it reports *)

Lemma log_eq E msg w : log E msg w = (Ok tt, logged E msg w).
Proof. reflexivity. Qed.


Lemma log_content_same_files w w' : files w' = files w -> log_content w' = log_content w.
Proof. intros H. unfold log_content. now rewrite H. Qed.

Lemma log_readable_same_files w w' : files w' = files w -> log_readable w' = log_readable w.
Proof. intros H. unfold log_readable. now rewrite H. Qed.


(** ** One run of [main], step by step *)

(** One turn of the capture loop. *)
Lemma capture_loop_cons E msg rest c w :
  capture_loop E (msg :: rest) c w
  = match extract_text_content msg with
    | Raise e => (Raise e, w)
    | Ok text =>
        if String.eqb text "" then capture_loop E rest c w
        else if is_important text then
          match append_to_stream E text (get_category text) w with
          | (Ok true, w1) =>
              capture_loop E rest (Datatypes.S c)
                (logged E ("Captured: " +:+ get_category text) w1)
          | (Ok false, w1) => capture_loop E rest c w1
          | (Raise e, w1) => (Raise e, w1)
          end
        else capture_loop E rest c w
    end.
Proof.
  cbn [capture_loop]. unfold bind at 1. unfold lift.
  destruct (extract_text_content msg) as [text|e]; [|reflexivity].
  destruct (String.eqb text ""); [reflexivity|].
  destruct (is_important text); [|reflexivity].
  cbv zeta. unfold bind at 1.
  destruct (append_to_stream E text (get_category text) w) as [[[|]|e] w1];
    [|reflexivity|reflexivity].
  unfold bind at 1. now rewrite log_eq.
Qed.

(** [main], with its binds opened. *)
Lemma main_eq E w :
  main E w
  = match get_recent_messages E (logged E "MemoryCapture Franklin starting..." w) with
    | (Raise e, wa) => (Raise e, wa)
    | (Ok messages, wa) =>
        if negb (Py.truthy messages) then (Ok tt, logged E "No messages found" wa)
        else
          match Py.len messages with
          | Raise e => (Raise e, wa)
          | Ok n =>
              let wb := logged E ("Found " +:+ PyStr.of_nat n +:+ " messages to analyze") wa in
              match Py.iter messages with
              | Raise e => (Raise e, wb)
              | Ok items =>
                  match capture_loop E items 0 wb with
                  | (Raise e, wc) => (Raise e, wc)
                  | (Ok captured, wc) =>
                      (Ok tt,
                       logged E ("Complete: captured " +:+ PyStr.of_nat captured +:+ " entries") wc)
                  end
              end
          end
    end.
Proof.
  unfold main. unfold bind at 1. rewrite log_eq. unfold bind at 1.
  destruct (get_recent_messages E _) as [[messages|e] wa]; [|reflexivity].
  destruct (negb (Py.truthy messages)); [reflexivity|].
  unfold bind at 1. unfold lift at 1.
  destruct (Py.len messages) as [n|e]; [|reflexivity].
  unfold bind at 1. rewrite log_eq. unfold bind at 1. unfold lift at 1. cbv zeta.
  destruct (Py.iter messages) as [items|e]; [|reflexivity].
  unfold bind at 1.
  destruct (capture_loop E items 0 _) as [[captured|e] wc]; reflexivity.
Qed.

Section Oblivious.

Lemma oblivious_ret {A} (a : A) : oblivious (ret a).
Proof. intros w1 w2. reflexivity. Qed.

Lemma oblivious_lift {A} (r : result A) : oblivious (lift r).
Proof. intros w1 w2. reflexivity. Qed.

Lemma oblivious_log E msg : oblivious (log E msg).
Proof. intros w1 w2. reflexivity. Qed.

Lemma oblivious_subprocess_run E args : oblivious (subprocess_run E args).
Proof. intros w1 w2. unfold subprocess_run. now destruct (Py.strs args). Qed.

Lemma oblivious_bind {A B} (m : M A) (k : A -> M B) :
  oblivious m -> (forall a, oblivious (k a)) -> oblivious (bind m k).
Proof.
  intros Hm Hk w1 w2. unfold bind. specialize (Hm w1 w2).
  destruct (m w1) as [[a1|e1] w1'], (m w2) as [[a2|e2] w2']; cbn [fst] in Hm;
    try discriminate; injection Hm as <-; [apply Hk | reflexivity].
Qed.

Lemma oblivious_try {A} (m : M A) handler :
  oblivious m -> (forall e, oblivious (handler e)) -> oblivious (try_except m handler).
Proof.
  intros Hm Hh w1 w2. unfold try_except. specialize (Hm w1 w2).
  destruct (m w1) as [[a1|e1] w1'], (m w2) as [[a2|e2] w2']; cbn [fst] in Hm;
    try discriminate; injection Hm as <-; [reflexivity | apply Hh].
Qed.

End Oblivious.

Ltac oblivious_step :=
  first
    [ apply oblivious_ret | apply oblivious_lift | apply oblivious_log
    | apply oblivious_subprocess_run
    | apply oblivious_try; [|intros ?]
    | apply oblivious_bind; [|intros ?]
    | match goal with
      | |- oblivious (match ?x with _ => _ end) => destruct x
      | |- oblivious (if ?b then _ else _) => destruct b
      end ].

Lemma oblivious_run_openclaw E args : oblivious (run_openclaw E args).
Proof. unfold run_openclaw. repeat oblivious_step. Qed.

(** What [get_recent_messages] returns is the outside's doing alone. *)
Lemma oblivious_get_recent_messages E : oblivious (get_recent_messages E).
Proof.
  unfold get_recent_messages.
  apply oblivious_bind; [apply oblivious_run_openclaw | intros [[success out] err]].
  destruct (negb success); [repeat oblivious_step|].
  apply oblivious_try; [|intros e; repeat oblivious_step].
  do 4 (apply oblivious_bind; [apply oblivious_lift | intros ?]).
  destruct a2 as [s|]; [|repeat oblivious_step].
  destruct (negb (Py.truthy s)); [repeat oblivious_step|].
  apply oblivious_bind; [apply oblivious_lift | intros key].
  apply oblivious_bind; [apply oblivious_run_openclaw | intros [[success2 out2] err2]].
  destruct (negb success2); repeat oblivious_step.
Qed.

(** The fetch in any world: the same value, and the files as they were. *)
Lemma fetch_again E w v w0 :
  fst (get_recent_messages E w) = Ok v ->
  exists wa, get_recent_messages E w0 = (Ok v, wa)
             /\ files wa = files w0 /\ dirs wa = dirs w0 /\ trace wa = trace w0
             /\ readonly wa = readonly w0.
Proof.
  intros Hv. pose proof (oblivious_get_recent_messages E w0 w) as Hob.
  pose proof (fetch_spec E w0) as Hspec. unfold wp, fetch_post in Hspec.
  destruct (get_recent_messages E w0) as [r wa]. cbn [fst snd] in *.
  destruct Hspec as (v' & cmds & -> & Hf & Hd & Ht & _ & _ & _ & Hro).
  rewrite Hv in Hob. injection Hob as ->. now exists wa.
Qed.

(** X8.  When the fetch brings nothing to analyse (an empty list, as after
    any failure, or any other empty value), [main] completes without a
    single file-system call: files, directories and the trace are as
    before, and its last line says that no messages were found. *)
Theorem X8_nothing_to_analyse E w v :
  fst (get_recent_messages E w) = Ok v ->
  Py.truthy v = false ->
  exists w' t,
    main E w = (Ok tt, w')
    /\ files w' = files w /\ dirs w' = dirs w /\ trace w' = trace w
    /\ last (stderr w') = Some ("[" +:+ t +:+ "] No messages found").
Proof.
  intros Hv Hfalsy. rewrite main_eq.
  destruct (fetch_again E w v (logged E "MemoryCapture Franklin starting..." w) Hv)
    as (wa & -> & Hf & Hd & Ht & _).
  rewrite Hfalsy. cbn [negb].
  eexists _, _. split; [reflexivity|]. cbn [logged files dirs trace stderr].
  repeat split; trivial. apply last_snoc.
Qed.

Lemma X8_offline_witness :
  exists w' t,
    main offline empty_world = (Ok tt, w')
    /\ files w' = files empty_world /\ dirs w' = dirs empty_world
    /\ trace w' = trace empty_world
    /\ last (stderr w') = Some ("[" +:+ t +:+ "] No messages found").
Proof.
  apply (X8_nothing_to_analyse offline empty_world (JArr [])); reflexivity.
Defined.






(** ** Running [main] again *)

Lemma settled_same_log w w' msg :
  log_content w' = log_content w -> settled w msg -> settled w' msg.
Proof. intros H (text & Hx & Hm). exists text. now rewrite H. Qed.

Lemma settled_extends w w' suffix msg :
  log_content w' = log_content w +:+ suffix -> settled w msg -> settled w' msg.
Proof.
  intros H (text & Hx & Hm). exists text. split; [exact Hx|].
  intros Hne Himp. rewrite H. apply PyStrFacts.contains_app_l. now apply Hm.
Qed.

(** After the loop completed on a readable log, every message is settled. *)
Lemma capture_loop_settles E msgs : forall c w n w',
  log_readable w = true ->
  capture_loop E msgs c w = (Ok n, w') ->
  log_readable w' = true
  /\ (exists suffix, log_content w' = log_content w +:+ suffix)
  /\ Forall (settled w') msgs.
Proof.
  induction msgs as [|msg rest IH]; intros c w n w' Hr.
  - intros H. injection H as _ <-. split; [exact Hr|]. split; [|constructor].
    exists "". now rewrite PyStrFacts.append_nil_r.
  - rewrite capture_loop_cons.
    destruct (extract_text_content msg) as [text|e] eqn:Hx; [|discriminate].
    destruct (String.eqb text "") eqn:Hne.
    { intros H. destruct (IH _ _ _ _ Hr H) as (Hr' & Hsuf & Hall).
      repeat split; trivial. constructor; [|exact Hall].
      exists text. split; [exact Hx|]. intros Hn. apply String.eqb_neq in Hn. congruence. }
    destruct (is_important text) eqn:Himp.
    2:{ intros H. destruct (IH _ _ _ _ Hr H) as (Hr' & Hsuf & Hall).
        repeat split; trivial. constructor; [|exact Hall].
        exists text. split; [exact Hx|]. congruence. }
    destruct (append_to_stream E text (get_category text) w) as [r1 w1] eqn:Hrun.
    apply append_to_stream_outcome in Hrun.
    destruct Hrun as [Hc | _ _ | e w1 _ _ _ _]; [| |discriminate]; intros H.
    + rewrite Hr in Hc. cbn [andb] in Hc.
      apply IH in H as (Hr' & [suffix Hsuf] & Hall);
        [|now rewrite log_readable_after_check].
      rewrite log_content_after_check in Hsuf.
      repeat split; eauto. constructor; [|exact Hall].
      exists text. split; [exact Hx|]. intros _ _. rewrite Hsuf.
      now apply PyStrFacts.contains_app_l.
    + apply IH in H as (Hr' & [suffix Hsuf] & Hall);
        [|now rewrite log_readable_logged, log_readable_after_append].
      rewrite log_content_logged, log_content_after_append in Hsuf.
      split; [exact Hr'|]. split.
      * eexists. rewrite Hsuf. apply PyStrFacts.append_assoc.
      * constructor; [|exact Hall].
        exists text. split; [exact Hx|]. intros _ _. rewrite Hsuf.
        apply PyStrFacts.contains_app_l, PyStrFacts.contains_app_r, entry_block_has_marker.
Qed.

(** On a readable log where every message is settled, the loop appends
    nothing and counts nothing. *)
Lemma capture_loop_settled E msgs : forall c w,
  log_readable w = true ->
  Forall (settled w) msgs ->
  exists w', capture_loop E msgs c w = (Ok c, w') /\ files w' = files w.
Proof.
  induction msgs as [|msg rest IH]; intros c w Hr Hall.
  - now exists w.
  - apply Forall_cons in Hall as [(text & Hx & Hm) Hrest].
    rewrite capture_loop_cons, Hx.
    destruct (String.eqb text "") eqn:Hne; [now apply IH|].
    destruct (is_important text) eqn:Himp; [|now apply IH].
    rewrite append_to_stream_captured
      by (rewrite Hr, Hm by (trivial; now apply String.eqb_neq); reflexivity).
    destruct (IH c (after_check w)) as (w' & Hloop & Hf).
    + now rewrite log_readable_after_check.
    + eapply Forall_impl; [exact Hrest|]. intros m. apply settled_same_log.
      apply log_content_after_check.
    + exists w'. split; [exact Hloop|]. now rewrite Hf, files_after_check.
Qed.

(** X10.  A run of [main] that completed on a readable log has nothing left
    to do: run again against the same outside, [main] completes and changes
    no file. *)
Theorem X10_second_run_changes_nothing E w w1 :
  log_readable w = true ->
  main E w = (Ok tt, w1) ->
  exists w2, main E w1 = (Ok tt, w2) /\ files w2 = files w1.
Proof.
  intros Hr. rewrite main_eq.
  set (w0 := logged E "MemoryCapture Franklin starting..." w).
  pose proof (fetch_spec E w0) as Hspec. unfold wp, fetch_post in Hspec.
  destruct (get_recent_messages E w0) as [r wa] eqn:Hfetch. cbn [fst snd] in Hspec.
  destruct Hspec as (v & cmds & -> & Hfa & _).
  assert (Hv : fst (get_recent_messages E w0) = Ok v) by now rewrite Hfetch.
  destruct (negb (Py.truthy v)) eqn:Htruthy.
  - intros H. injection H as <-. rewrite main_eq.
    destruct (fetch_again E w0 v (logged E "MemoryCapture Franklin starting..."
                                    (logged E "No messages found" wa)) Hv)
      as (wa2 & -> & Hf2 & _).
    rewrite Htruthy. eexists. split; [reflexivity|]. exact Hf2.
  - destruct (Py.len v) as [n|e] eqn:Hlen; [|discriminate]. cbv zeta.
    destruct (Py.iter v) as [items|e] eqn:Hiter; [|discriminate].
    set (wb := logged E _ wa).
    destruct (capture_loop E items 0 wb) as [[captured|e] wc] eqn:Hloop; [|discriminate].
    intros H. injection H as <-.
    assert (Hrb : log_readable wb = true).
    { unfold wb. rewrite log_readable_logged, (log_readable_same_files _ _ Hfa). exact Hr. }
    destruct (capture_loop_settles E items 0 wb captured wc Hrb Hloop) as (Hrc & _ & Hall).
    rewrite main_eq.
    set (w1 := logged E ("Complete: captured " +:+ PyStr.of_nat captured +:+ " entries") wc).
    destruct (fetch_again E w0 v (logged E "MemoryCapture Franklin starting..." w1) Hv)
      as (wa2 & -> & Hf2 & _).
    rewrite Htruthy, Hlen. cbv zeta. rewrite Hiter.
    set (wb2 := logged E _ wa2).
    assert (Hfb2 : files wb2 = files wc) by exact Hf2.
    destruct (capture_loop_settled E items 0 wb2) as (wc2 & -> & Hfc2).
    + now rewrite (log_readable_same_files _ _ Hfb2).
    + eapply Forall_impl; [exact Hall|]. intros m. apply settled_same_log.
      now apply log_content_same_files.
    + eexists. split; [reflexivity|]. cbn [logged files]. now rewrite Hfc2, Hfb2.
Qed.

Lemma X10_online_twice_witness :
  exists w2,
    main online (snd (main online empty_world)) = (Ok tt, w2)
    /\ files w2 = files (snd (main online empty_world)).
Proof.
  apply (X10_second_run_changes_nothing online empty_world (snd (main online empty_world))).
  - apply log_readable_empty_world.
  - destruct main_online_run as [Hfst _].
    rewrite (surjective_pairing (main online empty_world)) at 1. now rewrite Hfst.
Defined.

(** ** spawn-memory-judge.py *)

(** [spawn_franklin], case by case on how the agent's process ended. *)
Lemma spawn_franklin_eq E chunk_file queue_file w :
  spawn_franklin E chunk_file queue_file w
  = (Ok (match spawn E (agent_cmd chunk_file queue_file) with
         | Completed returncode _ err =>
             if (returncode =? 0)%Z then (true, "Franklin completed")
             else (false, "Agent failed: " +:+ err)
         | Failed e => (false, exn_str e)
         end),
     ran (agent_cmd chunk_file queue_file) w).
Proof.
  unfold spawn_franklin, try_except, bind, subprocess_run, ret, agent_cmd, ran.
  cbn [Py.strs rbind].
  destruct (spawn E _) as [rc out err|e]; [|reflexivity].
  now destruct (rc =? 0)%Z.
Qed.

(** X11.  The script calls [print] exactly once and exits with status 0 or
    1, touching no file and printing nothing on standard error.  Called
    with other than two arguments it runs nothing, prints the usage text and
    exits with 1.  Called with two, it runs the agent command once, with the
    task text built around the two file names, and exits with 0 exactly
    when that process completed with exit code 0; otherwise the text it
    prints carries the process's error output, whole, or the exception's
    text. *)
Theorem X11_judge_script_exit_status E argv w :
  exists message status w',
    judge_script E argv w = (Ok ([message], status), w')
    /\ files w' = files w /\ dirs w' = dirs w /\ trace w' = trace w
    /\ stderr w' = stderr w
    /\ (status = 0 \/ status = 1)%Z
    /\ (length argv <> 3 ->
        status = 1%Z /\ spawned w' = spawned w
        /\ message = "Usage: spawn-memory-judge.py <chunk_file> <queue_file>")
    /\ (forall a0 chunk_file queue_file,
          argv = [a0; chunk_file; queue_file] ->
          spawned w' = spawned w ++ [agent_cmd chunk_file queue_file]
          /\ (status = 0%Z <->
              exists out err,
                spawn E (agent_cmd chunk_file queue_file) = Completed 0 out err)
          /\ (forall out err,
                spawn E (agent_cmd chunk_file queue_file) = Completed 0 out err ->
                message = "Franklin completed")
          /\ (forall returncode out err,
                spawn E (agent_cmd chunk_file queue_file) = Completed returncode out err ->
                returncode <> 0%Z -> message = "Agent failed: " +:+ err)
          /\ (forall e,
                spawn E (agent_cmd chunk_file queue_file) = Failed e ->
                message = exn_str e)).
Proof.
  assert (Husage : forall argv',
            length argv' <> 3 ->
            judge_script E argv' w
            = (Ok (["Usage: spawn-memory-judge.py <chunk_file> <queue_file>"], 1%Z), w)).
  { intros [|a0 [|c [|q [|x rest]]]] H; try reflexivity. now destruct H. }
  destruct (Nat.eq_dec (length argv) 3) as [Hlen | Hlen].
  2:{ exists "Usage: spawn-memory-judge.py <chunk_file> <queue_file>", 1%Z, w.
      split; [now apply Husage|].
      do 4 (split; [reflexivity|]). split; [now right|].
      split; [intros _; now repeat split|].
      intros a c q ->. now destruct Hlen. }
  destruct argv as [|a0 [|chunk_file [|queue_file [|extra rest]]]]; try discriminate.
  clear Husage Hlen. cbn [judge_script]. unfold bind. rewrite spawn_franklin_eq.
  set (cmd := agent_cmd chunk_file queue_file).
  assert (Hargs : forall (P : string -> string -> Prop),
            P chunk_file queue_file ->
            forall a c q, [a0; chunk_file; queue_file] = [a; c; q] -> P c q).
  { intros P HP a c q H. now injection H as _ <- <-. }
  destruct (spawn E cmd) as [rc out err|e] eqn:Hspawn.
  - destruct (rc =? 0)%Z eqn:Hrc.
    + apply Z.eqb_eq in Hrc. subst rc.
      exists "Franklin completed", 0%Z, (ran cmd w).
      split; [reflexivity|]. do 4 (split; [reflexivity|]). split; [now left|].
      split; [intros H; now destruct H|].
      apply Hargs. fold cmd. rewrite Hspawn.
      split; [reflexivity|]. split; [split; eauto|].
      split; [reflexivity|]. split; [|discriminate].
      intros rc' out' err' H Hne. injection H as <- _ _. now destruct Hne.
    + apply Z.eqb_neq in Hrc.
      exists ("Agent failed: " +:+ err), 1%Z, (ran cmd w).
      split; [reflexivity|]. do 4 (split; [reflexivity|]). split; [now right|].
      split; [intros H; now destruct H|].
      apply Hargs. fold cmd. rewrite Hspawn.
      split; [reflexivity|]. split.
      { split; [discriminate|]. intros (out' & err' & H). injection H as -> _ _.
        now destruct Hrc. }
      split; [intros out' err' H; injection H as -> _ _; now destruct Hrc|].
      split; [|discriminate].
      intros rc' out' err' H _. now injection H as _ _ <-.
  - exists (exn_str e), 1%Z, (ran cmd w).
    split; [reflexivity|]. do 4 (split; [reflexivity|]). split; [now right|].
    split; [intros H; now destruct H|].
    apply Hargs. fold cmd. rewrite Hspawn.
    split; [reflexivity|]. split.
    { split; [discriminate|]. intros (out' & err' & H). discriminate. }
    split; [discriminate|]. split; [discriminate|].
    intros e' H. now injection H as <-.
Qed.

Lemma X11_two_files_witness :
  exists message status w',
    judge_script offline ["spawn-memory-judge.py"; "/tmp/chunk.json"; "/tmp/queue.jsonl"]
      empty_world = (Ok ([message], status), w')
    /\ status = 1%Z
    /\ spawned w' = [agent_cmd "/tmp/chunk.json" "/tmp/queue.jsonl"]
    /\ message = "[Errno 2] No such file or directory: 'openclaw'".
Proof.
  destruct (X11_judge_script_exit_status offline
              ["spawn-memory-judge.py"; "/tmp/chunk.json"; "/tmp/queue.jsonl"] empty_world)
    as (message & status & w' & Hrun & _ & _ & _ & _ & Hstatus & _ & Hargs).
  destruct (Hargs _ _ _ eq_refl) as (Hspawned & Hzero & _ & _ & Hfailed).
  exists message, status, w'. split; [exact Hrun|]. split; [|split].
  - destruct Hstatus as [H0 | H1]; [|exact H1].
    apply Hzero in H0 as (out & err & H). discriminate.
  - exact Hspawned.
  - apply (Hfailed _ eq_refl).
Defined.

(** ** The fetch when all goes well *)

Lemma run_openclaw_strs E args ss w :
  Py.strs args = Ok ss ->
  run_openclaw E args w
  = (Ok (outcome (spawn E ("openclaw" :: ss))), ran ("openclaw" :: ss) w).
Proof.
  intros H. unfold run_openclaw, try_except, bind, subprocess_run, ret.
  cbn [Py.strs rbind]. rewrite H. cbn [rbind].
  now destruct (spawn E ("openclaw" :: ss)).
Qed.

Lemma find_main_first before : forall s after,
  Forall (fun s => plain_session s = true /\ has_main s = false) before ->
  has_main s = true ->
  find_main (before ++ s :: after) = Ok (Some s).
Proof.
  induction before as [|b before IH]; intros s after Hall Hs.
  - now apply find_main_takes.
  - apply Forall_cons in Hall as [[Hp Hm] Hall].
    rewrite <- app_comm_cons, find_main_skips by assumption. now apply IH.
Qed.

(** X12.  When the session list comes back as JSON with its sessions in a
    list, the history asked for is that of the first session whose key
    contains "main"; and when that history comes back as a JSON object,
    [get_recent_messages] returns its [messages] value as it is (the empty
    list when it has none), having run the two commands and printed
    nothing. *)
Theorem X12_fetch_returns_history E w out err fields before session after k out2 err2 history :
  spawn E list_cmd = Completed 0 out err ->
  json_loads E out = Ok (JObj fields) ->
  Py.dict_get fields "sessions" = Some (JArr (before ++ JObj session :: after)) ->
  Forall (fun s => plain_session s = true /\ has_main s = false) before ->
  Py.dict_get session "key" = Some (JStr k) ->
  PyStr.contains "main" k = true ->
  spawn E (history_cmd k) = Completed 0 out2 err2 ->
  json_loads E out2 = Ok (JObj history) ->
  get_recent_messages E w
  = (Ok (match Py.dict_get history "messages" with
         | Some messages => messages
         | None => JArr []
         end),
     ran (history_cmd k) (ran list_cmd w)).
Proof.
  intros Hlist Hjson Hsessions Hbefore Hkey Hmain Hhist Hjson2.
  assert (Hfound : find_main (before ++ JObj session :: after) = Ok (Some (JObj session))).
  { apply find_main_first; [exact Hbefore|]. cbn. now rewrite Hkey. }
  assert (Htruthy : Py.truthy (JObj session) = true).
  { destruct session; [discriminate | reflexivity]. }
  unfold get_recent_messages. unfold bind at 1.
  rewrite (run_openclaw_strs E _ ["sessions_list"; "--limit"; "5"; "--format"; "json"] w)
    by reflexivity.
  fold list_cmd. rewrite Hlist. cbn [outcome Z.eqb negb].
  unfold try_except, bind, lift.
  rewrite Hjson. cbn [Py.get]. rewrite Hsessions. cbn [Py.iter].
  rewrite Hfound, Htruthy. cbn [negb Py.get]. rewrite Hkey.
  rewrite (run_openclaw_strs E _ ["sessions_history"; k; "--limit"; "10"; "--format"; "json"])
    by reflexivity.
  fold (history_cmd k). rewrite Hhist. cbn [outcome Z.eqb negb].
  rewrite Hjson2. reflexivity.
Qed.

Lemma X12_online_witness :
  get_recent_messages online empty_world
  = (Ok (JArr [ JObj [("role", JStr "user"); ("content", JStr "ok")];
                JObj [("role", JStr "assistant");
                      ("content", JArr [JObj [("type", JStr "text");
                                              ("text", JStr scenario_text)]])];
                JObj [("role", JStr "assistant"); ("content", JStr scenario_text)] ]),
     ran (history_cmd "agent:main:main") (ran list_cmd empty_world)).
Proof.
  apply (X12_fetch_returns_history online empty_world "sessions.json" ""
           [("sessions", JArr [JObj [("key", JStr "agent:main:main")]])]
           [] [("key", JStr "agent:main:main")] [] "agent:main:main" "history.json" ""
           [("messages",
             JArr [ JObj [("role", JStr "user"); ("content", JStr "ok")];
                    JObj [("role", JStr "assistant");
                          ("content", JArr [JObj [("type", JStr "text");
                                                  ("text", JStr scenario_text)]])];
                    JObj [("role", JStr "assistant"); ("content", JStr scenario_text)] ])]);
    try reflexivity. constructor.
Defined.

(** ** Writes the file system refuses *)

(** A directory where the log should be: the read that finds it is
    swallowed, the append is not. *)
Example append_to_directory :
  fst (already_captured (get_hash scenario_text) world_with_log_directory) = Ok false
  /\ fst (append_to_stream offline scenario_text "decision" world_with_log_directory)
     = Raise (IsADirectoryError STREAM_FILE)
  /\ exn_str (IsADirectoryError STREAM_FILE)
     = "[Errno 21] Is a directory: '/root/clawd/memory/stream.log'".
Proof. repeat split; vm_compute; reflexivity. Qed.

(** A regular file where the log's directory should be, or above it. *)
Example makedirs_onto_file :
  fst (append_to_stream offline scenario_text "decision" (world_with_file "/root/clawd/memory"))
  = Raise (FileExistsError "/root/clawd/memory")
  /\ fst (append_to_stream offline scenario_text "decision" (world_with_file "/root/clawd"))
     = Raise (NotADirectoryError "/root/clawd/memory").
Proof. split; vm_compute; reflexivity. Qed.

(** A workspace that takes no new entry: the directory of the log cannot be
    made; and where it is there already, the log cannot be created. *)
Example write_in_readonly_workspace :
  fst (append_to_stream offline scenario_text "decision"
         (World ∅ {[ "/root"; "/root/clawd" ]} {[ "/root/clawd" ]} [] [] [] 0))
  = Raise (PermissionError "/root/clawd/memory")
  /\ fst (append_to_stream offline scenario_text "decision"
            (World ∅ {[ "/root"; "/root/clawd"; "/root/clawd/memory" ]}
                   {[ "/root/clawd/memory" ]} [] [] [] 0))
     = Raise (PermissionError STREAM_FILE).
Proof. split; vm_compute; reflexivity. Qed.



